(** * Space Observation Journal: the service worker (src/sw.js)

    A shallow embedding of the worker's four listeners (install, activate,
    fetch, message), its two retrieval strategies and its offline fallback,
    over an explicit model of the host objects the script talks to: the
    CacheStorage ([caches]), the network ([fetch]), Response objects, the
    console and the worker's takeover controls.

    Asynchronous functions are embedded as state-passing computations that
    either fulfil with a value or reject with an error; a JavaScript
    [try]/[catch] around awaited calls becomes [try_catch].  Every call
    into the host appends an event to a trace, so that "no network fetch
    happened" or "the deletions precede the claim" are statements about
    that trace. *)

From Stdlib Require Import ZArith String Ascii List Bool.
From stdpp Require Import gmap strings list.

Open Scope string_scope.
Open Scope Z_scope.

(** ** Strings as JavaScript uses them *)

(** The double quote and the line feed cannot be typed inside a literal. *)
Definition dq : string := String "034"%char EmptyString.
Definition lf : string := String "010"%char EmptyString.

(** Byte-lowercasing, as the Headers object applies it to header names. *)
Definition ascii_lower (c : ascii) : ascii :=
  let n := nat_of_ascii c in
  if (65 <=? n)%nat && (n <=? 90)%nat then ascii_of_nat (n + 32) else c.

Fixpoint string_lower (s : string) : string :=
  match s with
  | EmptyString => EmptyString
  | String c rest => String (ascii_lower c) (string_lower rest)
  end.

(** [s.startsWith(p)] *)
Definition startsWith (s p : string) : bool := String.prefix p s.

(** [s.includes(needle)]: [needle] occurs somewhere in [s]. *)
Fixpoint includes (s needle : string) : bool :=
  String.prefix needle s ||
  match s with
  | EmptyString => false
  | String _ rest => includes rest needle
  end.

(** ** Requests and responses *)

(** The parts of [new URL(request.url)] the worker reads.  [protocol]
    keeps its trailing colon, as in the URL API ("https:"). *)
Record URL := mkURL {
  href : string;
  protocol : string;
  hostname : string
}.

(** A Request.  Header names are stored lower-cased, as the Headers object
    normalises them. *)
Record Request := mkRequest {
  method : string;
  url : URL;
  destination : string;
  req_headers : list (string * string)
}.

(** [headers.get(name)]: the values recorded under [name], whatever its
    case, joined by ", "; null when there is none. *)
Definition headers_get (hs : list (string * string)) (name : string)
  : option string :=
  match List.filter (fun h => String.eqb (fst h) (string_lower name)) hs with
  | [] => None
  | found => Some (String.concat ", " (map snd found))
  end.

(** What a response carries: the snapshot a cache stores. *)
Record ResponseData := mkResponseData {
  status : Z;
  statusText : string;
  headers : list (string * string);
  body : string
}.

(** A live Response object: its contents together with the flag telling
    whether its body stream has been consumed. *)
Record ResponseObj := mkResponseObj {
  contents : ResponseData;
  bodyUsed : bool
}.

(** Response objects live in a heap and are handled by reference. *)
Definition Ref := nat.

(** A store entry is keyed by method and URL. *)
Definition request_key (request : Request) : string * string :=
  (method request, href (url request)).

(** ** The host *)

Inductive JsError :=
| TypeError (msg : string)
| NetworkError (msg : string).

(** What the network answers to one request. *)
Inductive NetResult :=
| NetResponse (r : ResponseData)
| NetFailure (e : JsError).

(** Calls into the host, in the order they are made. *)
Inductive Event :=
| EvConsoleLog (args : list string)
| EvConsoleWarn (msg : string) (error : JsError)
| EvFetch (request : Request)
| EvCachesMatch (key : string * string)
| EvCachesOpen (name : string)
| EvCachesKeys
| EvCachesDelete (name : string)
| EvCachePut (name : string) (key : string * string)
| EvSkipWaiting
| EvClientsClaim.

(** The CacheStorage is a list of named caches in creation order (the order
    [caches.match] and [caches.keys] follow); one cache maps request keys
    to response snapshots. *)
Record World := mkWorld {
  storage : list (string * gmap (string * string) ResponseData);
  objects : list ResponseObj;
  trace : list Event
}.

Definition set_storage (w : World) st : World :=
  mkWorld st (objects w) (trace w).
Definition set_objects (w : World) os : World :=
  mkWorld (storage w) os (trace w).
Definition set_trace (w : World) tr : World :=
  mkWorld (storage w) (objects w) tr.

(** ** Asynchronous computations *)

Inductive Outcome (A : Type) :=
| Fulfilled (a : A)
| Rejected (e : JsError).
Arguments Fulfilled {A} a.
Arguments Rejected {A} e.

Definition Async (A : Type) : Type := World -> Outcome A * World.

Definition resolve {A} (a : A) : Async A := fun w => (Fulfilled a, w).
Definition reject {A} (e : JsError) : Async A := fun w => (Rejected e, w).

(** [await]: go on with the value, or stop at the rejection. *)
Definition and_then {A B} (m : Async A) (k : A -> Async B) : Async B :=
  fun w =>
    match m w with
    | (Fulfilled a, w') => k a w'
    | (Rejected e, w') => (Rejected e, w')
    end.

#[global] Instance Async_ret : MRet Async := @resolve.
#[global] Instance Async_bind : MBind Async :=
  fun A B k m => and_then m k.

(** [try { m } catch (error) { handler error }] *)
Definition try_catch {A} (m : Async A) (handler : JsError -> Async A)
  : Async A :=
  fun w =>
    match m w with
    | (Fulfilled a, w') => (Fulfilled a, w')
    | (Rejected e, w') => handler e w'
    end.

(** A promise that is started and dropped (a call without [await]): its
    effects happen, its outcome reaches nobody. *)
Definition detached {A} (m : Async A) : Async unit :=
  fun w => (Fulfilled tt, snd (m w)).

(** A primitive of the host, given by what it does to the world. *)
Definition host {A} (f : World -> Outcome A * World) : Async A := f.

Definition emit (e : Event) : Async unit :=
  host (fun w => (Fulfilled tt, set_trace w (trace w ++ [e]))).

Definition console_log (args : list string) : Async unit :=
  emit (EvConsoleLog args).
Definition console_warn (msg : string) (error : JsError) : Async unit :=
  emit (EvConsoleWarn msg error).

(** *** Response objects *)

Definition alloc (o : ResponseObj) : Async Ref :=
  host (fun w => (Fulfilled (length (objects w)),
                  set_objects w (objects w ++ [o]))).

(** [new Response(body, { status, statusText, headers })] for a string
    body: header names are lower-cased, and the constructor supplies the
    text content type when the init names none. *)
Definition new_Response (body : string) (status : Z) (statusText : string)
    (init_headers : list (string * string)) : Async Ref :=
  let hs := map (fun h => (string_lower (fst h), snd h)) init_headers in
  alloc (mkResponseObj
           (mkResponseData status statusText
              (match headers_get hs "content-type" with
               | Some _ => hs
               | None => hs ++ [("content-type", "text/plain;charset=UTF-8")]
               end)
              body)
           false).

Definition deref (r : Ref) : Async ResponseObj :=
  host (fun w =>
    match objects w !! r with
    | Some o => (Fulfilled o, w)
    | None => (Rejected (TypeError "not a Response"), w)
    end).

(** [response.clone()]: a second object with the same contents; a
    TypeError once the body has been consumed. *)
Definition response_clone (r : Ref) : Async Ref :=
  o ← deref r;
  if bodyUsed o then reject (TypeError "Response body is already used")
  else alloc (mkResponseObj (contents o) false).

(** A Response object is truthy, whatever it holds. *)
Definition truthy_object (r : Ref) : bool := true.

(** *** The CacheStorage *)

Definition CACHE_NAME : string := "space-observation-journal-v1".

(** The first cache, in creation order, holding an entry for the key. *)
Fixpoint storage_match
    (st : list (string * gmap (string * string) ResponseData))
    (key : string * string) : option ResponseData :=
  match st with
  | [] => None
  | (_, cache) :: rest =>
      match cache !! key with
      | Some d => Some d
      | None => storage_match rest key
      end
  end.

Fixpoint storage_lookup
    (st : list (string * gmap (string * string) ResponseData))
    (name : string) : option (gmap (string * string) ResponseData) :=
  match st with
  | [] => None
  | (n, cache) :: rest =>
      if String.eqb n name then Some cache else storage_lookup rest name
  end.

(** Replace the contents of the cache called [name]; nothing happens when
    there is no such cache. *)
Fixpoint storage_update
    (st : list (string * gmap (string * string) ResponseData))
    (name : string)
    (f : gmap (string * string) ResponseData ->
         gmap (string * string) ResponseData)
  : list (string * gmap (string * string) ResponseData) :=
  match st with
  | [] => []
  | (n, cache) :: rest =>
      if String.eqb n name then (n, f cache) :: rest
      else (n, cache) :: storage_update rest name f
  end.

Definition storage_delete
    (st : list (string * gmap (string * string) ResponseData))
    (name : string) :=
  List.filter (fun c => negb (String.eqb (fst c) name)) st.

(** [caches.match(request)]: a fresh Response built from the first stored
    snapshot, or undefined. *)
Definition caches_match (request : Request) : Async (option Ref) :=
  emit (EvCachesMatch (request_key request)) ;;
  host (fun w =>
     match storage_match (storage w) (request_key request) with
     | Some d => (r ← alloc (mkResponseObj d false); mret (Some r)) w
     | None => (Fulfilled None, w)
     end).

(** The storage once a cache called [name] exists: a missing one is
    created empty, last in creation order. *)
Definition storage_open
    (st : list (string * gmap (string * string) ResponseData))
    (name : string)
  : list (string * gmap (string * string) ResponseData) :=
  match storage_lookup st name with
  | Some _ => st
  | None => (st ++ [(name, ∅)])%list
  end.

(** [caches.open(name)]; the handle it gives is the name. *)
Definition caches_open (name : string) : Async string :=
  emit (EvCachesOpen name) ;;
  host (fun w =>
     (Fulfilled name, set_storage w (storage_open (storage w) name))).

(** [caches.keys()] *)
Definition caches_keys : Async (list string) :=
  emit EvCachesKeys ;;
  host (fun w => (Fulfilled (map fst (storage w)), w)).

(** [caches.delete(name)]: true when a cache was there. *)
Definition caches_delete (name : string) : Async bool :=
  emit (EvCachesDelete name) ;;
  host (fun w =>
     (Fulfilled (bool_decide (is_Some (storage_lookup (storage w) name))),
      set_storage w (storage_delete (storage w) name))).

(** [cache.put(request, response)]: consumes the body of [response] and
    records its snapshot under the request key, replacing an older entry.
    A response whose body was already consumed is refused. *)
Definition cache_put (cache : string) (request : Request) (r : Ref)
  : Async unit :=
  emit (EvCachePut cache (request_key request)) ;;
  o ← deref r;
  if bodyUsed o then reject (TypeError "Response body is already used")
  else
    host (fun w =>
      (Fulfilled tt,
       mkWorld
         (storage_update (storage w) cache
            (fun c => <[request_key request := contents o]> c))
         (<[r := mkResponseObj (contents o) true]> (objects w))
         (trace w))).

(** *** Takeover controls *)

Definition skipWaiting : Async unit := emit EvSkipWaiting.
Definition clients_claim : Async unit := emit EvClientsClaim.

(** [Promise.all]: every promise of the list has been started; the result
    is the list of their values, or the first rejection. *)
Fixpoint promise_all {A} (ps : list (Async A)) : Async (list A) :=
  match ps with
  | [] => mret []
  | p :: rest =>
      host (fun w =>
        match p w with
        | (Fulfilled a, w') => (vs ← promise_all rest; mret (a :: vs)) w'
        | (Rejected e, w') => (Rejected e, snd (promise_all rest w'))
        end)
  end.

(** ** The worker *)

Section Worker.

(** The network the worker runs against, and the host's resolution of a
    manifest URL against the worker's location. *)
Variable network : Request -> NetResult.
Variable absolute : string -> URL.

(** [fetch(request)] *)
Definition fetch (request : Request) : Async Ref :=
  emit (EvFetch request) ;;
  match network request with
  | NetResponse d => alloc (mkResponseObj d false)
  | NetFailure e => reject e
  end.

Definition response_ok (d : ResponseData) : bool :=
  (200 <=? status d) && (status d <=? 299).

(** What [cache.addAll] records for one URL, when its fetch gave a
    response in the ok range. *)
Definition addAll_entry (request : Request)
  : option ((string * string) * ResponseData) :=
  match network request with
  | NetResponse d =>
      if response_ok d then Some (request_key request, d) else None
  | NetFailure _ => None
  end.

(** [cache.addAll(urls)]: fetches every URL; records all the responses
    when every fetch gave an ok response, and otherwise rejects with a
    TypeError and records nothing. *)
Definition cache_addAll (cache : string) (urls : list string) : Async unit :=
  let requests := map (fun u => mkRequest "GET" (absolute u) "" []) urls in
  host (fun w => (Fulfilled tt,
                  set_trace w (trace w ++ map EvFetch requests))) ;;
  match mapM addAll_entry requests with
  | Some entries =>
      host (fun w =>
        (Fulfilled tt,
         set_storage w
           (storage_update (storage w) cache
              (fun c => foldl (fun c e => <[e.1 := e.2]> c) c entries))))
  | None => reject (TypeError "Request failed")
  end.

Definition PRECACHE_ASSETS : list string :=
  ["/"; "/index.html"; "/manifest.json"; "/icon-192.png"; "/icon-512.png"].

(** *** The offline fallback *)

Definition OFFLINE_PAGE : string :=
  String.concat lf
    ["<!DOCTYPE html>";
     "<html lang=" +:+ dq +:+ "en" +:+ dq +:+ ">";
     "<head>";
     "  <meta charset=" +:+ dq +:+ "UTF-8" +:+ dq +:+ ">";
     "  <meta name=" +:+ dq +:+ "viewport" +:+ dq +:+ " content=" +:+ dq +:+ "width=device-width, initial-scale=1.0" +:+ dq +:+ ">";
     "  <title>Space Journal — Offline</title>";
     "  <style>";
     "    body { background: #03040a; color: #e2e8f0; font-family: sans-serif;";
     "           display: flex; align-items: center; justify-content: center;";
     "           min-height: 100vh; margin: 0; text-align: center; padding: 20px; }";
     "    h1 { background: linear-gradient(135deg,#a855f7,#3b82f6);";
     "         -webkit-background-clip: text; -webkit-text-fill-color: transparent;";
     "         font-size: 2rem; margin-bottom: 12px; }";
     "    p { color: #94a3b8; margin-bottom: 24px; }";
     "    button { background: linear-gradient(135deg,#7c3aed,#3b82f6);";
     "             color: white; border: none; padding: 12px 28px;";
     "             border-radius: 50px; cursor: pointer; font-size: 1rem; }";
     "  </style>";
     "</head>";
     "<body>";
     "  <div>";
     "    <div style=" +:+ dq +:+ "font-size:4rem;margin-bottom:16px" +:+ dq +:+ ">🌌</div>";
     "    <h1>You're Offline</h1>";
     "    <p>The Space Observation Journal requires an internet connection for the first load.<br>";
     "       Once loaded, it works completely offline.</p>";
     "    <button onclick=" +:+ dq +:+ "window.location.reload()" +:+ dq +:+ ">Try Again</button>";
     "  </div>";
     "</body>";
     "</html>"].

(** The test is [request.destination === 'document' ||
    request.headers.get('accept')?.includes('text/html')]: a missing header
    gives undefined, which is falsy.  [url] is computed and not used, as in
    the source. *)
Definition offlineFallback (request : Request) : Async Ref :=
  let url := url request in
  if String.eqb (destination request) "document"
     || match headers_get (req_headers request) "accept" with
        | Some accept => includes accept "text/html"
        | None => false
        end
  then
    new_Response OFFLINE_PAGE 200 ""
      [("Content-Type", "text/html; charset=utf-8")]
  else
    new_Response "Offline" 503 "Service Unavailable" [].

(** *** The strategies *)

(** In [cache.put(request, networkResponse.clone())] the clone is taken
    first, in the caller, and the promise of [put] is dropped. *)
Definition cacheFirstStrategy (request : Request) : Async Ref :=
  try_catch
    (cachedResponse ← caches_match request;
     match cachedResponse with
     | Some r => mret r
     | None =>
         networkResponse ← fetch request;
         (o ← deref networkResponse;
          if truthy_object networkResponse && (status (contents o) =? 200)
          then
            cache ← caches_open CACHE_NAME;
            clone ← response_clone networkResponse;
            detached (cache_put cache request clone)
          else mret tt) ;;
         mret networkResponse
     end)
    (fun error =>
       console_warn "[SW] Cache-first fetch failed:" error ;;
       offlineFallback request).

Definition networkFirstStrategy (request : Request) : Async Ref :=
  try_catch
    (networkResponse ← fetch request;
     (o ← deref networkResponse;
      if truthy_object networkResponse && (status (contents o) =? 200)
      then
        cache ← caches_open CACHE_NAME;
        clone ← response_clone networkResponse;
        detached (cache_put cache request clone)
      else mret tt) ;;
     mret networkResponse)
    (fun error =>
       cachedResponse ← caches_match request;
       match cachedResponse with
       | Some r => mret r
       | None => offlineFallback request
       end).

(** *** The install listener *)

(** The computation is the promise handed to [event.waitUntil]:
    [caches.open(..).then(..).then(..).catch(..)]. *)
Definition onInstall : Async unit :=
  console_log ["[SW] Installing Space Observation Journal SW…"] ;;
  try_catch
    (cache ← caches_open CACHE_NAME;
     console_log ["[SW] Pre-caching app shell assets"] ;;
     cache_addAll cache PRECACHE_ASSETS ;;
     console_log ["[SW] Pre-cache complete — skipping waiting"] ;;
     skipWaiting)
    (fun err => console_warn "[SW] Pre-cache failed:" err).

(** What the host makes of the promise given to [waitUntil] in the install
    event: the worker is installed when it fulfils, and discarded when it
    rejects. *)
Inductive WorkerState := Installed | Redundant.

Definition install_settles {A} (o : Outcome A) : WorkerState :=
  match o with
  | Fulfilled _ => Installed
  | Rejected _ => Redundant
  end.

(** *** The activate listener *)

Definition onActivate : Async unit :=
  console_log ["[SW] Activating new Service Worker…"] ;;
  cacheNames ← caches_keys;
  promise_all
    (map (fun name =>
            console_log ["[SW] Deleting old cache:"; name] ;;
            caches_delete name)
         (List.filter (fun name => negb (String.eqb name CACHE_NAME))
            cacheNames)) ;;
  console_log ["[SW] Activation complete — claiming all clients"] ;;
  clients_claim.

(** *** The fetch listener *)

(** [None]: the listener returned without [event.respondWith], the request
    is left to the browser.  [Some r]: the response the page receives. *)
Definition onFetch (request : Request) : Async (option Ref) :=
  let url := url request in
  if negb (String.eqb (method request) "GET") then mret None
  else if negb (startsWith (protocol url) "http") then mret None
  else if String.eqb (hostname url) "fonts.googleapis.com"
          || String.eqb (hostname url) "fonts.gstatic.com" then
    r ← networkFirstStrategy request; mret (Some r)
  else
    r ← cacheFirstStrategy request; mret (Some r).

End Worker.

(** *** The message listener *)

(** The values [event.data] can hold. *)
#[warnings="-register-all"]
Inductive JsValue :=
| JsUndefined
| JsNull
| JsBoolean (b : bool)
| JsNumber (n : Z)
| JsString (s : string)
| JsObject (props : list (string * JsValue)).

Definition truthy (v : JsValue) : bool :=
  match v with
  | JsUndefined | JsNull => false
  | JsBoolean b => b
  | JsNumber n => negb (n =? 0)
  | JsString s => negb (String.eqb s "")
  | JsObject _ => true
  end.

(** The value an object holds under a property name. *)
Definition own_property (props : list (string * JsValue)) (name : string)
  : option JsValue :=
  match List.filter (fun p => String.eqb (fst p) name) props with
  | [] => None
  | p :: _ => Some (snd p)
  end.

(** [v.name]: a TypeError on undefined and null, undefined on the other
    primitives and on an object without the property. *)
Definition js_get (v : JsValue) (name : string) : Async JsValue :=
  match v with
  | JsUndefined | JsNull =>
      reject (TypeError "Cannot read properties of undefined")
  | JsObject props =>
      match own_property props name with
      | Some p => mret p
      | None => mret JsUndefined
      end
  | _ => mret JsUndefined
  end.

(** [v === s] for a string [s] *)
Definition strict_eq_string (v : JsValue) (s : string) : bool :=
  match v with
  | JsString t => String.eqb t s
  | _ => false
  end.

Definition onMessage (data : JsValue) : Async unit :=
  if truthy data then
    type ← js_get data "type";
    if strict_eq_string type "SKIP_WAITING" then detached skipWaiting
    else mret tt
  else mret tt.

(** ** The activate listener and the time deletions take

    [caches.delete(name)] returns a promise: the call asks for the
    deletion, and the host carries it out at a moment of its choosing, at
    the latest when somebody waits for the promise.  [onActivate] above
    runs each host call to completion; here asking and carrying out are
    two moments, so that what the listener waits for can be told from what
    it merely starts.  [hurry] is the host's choice, per cache, to carry a
    deletion out as soon as it is asked for. *)

Inductive Moment :=
| Called (e : Event)
| Carried (name : string).

Record Timed := mkTimed {
  t_storage : list (string * gmap (string * string) ResponseData);
  t_pending : list string;
  t_timeline : list Moment
}.

Definition TAsync (A : Type) : Type := Timed -> Outcome A * Timed.

Definition t_resolve {A} (a : A) : TAsync A := fun t => (Fulfilled a, t).

Definition t_and_then {A B} (m : TAsync A) (k : A -> TAsync B) : TAsync B :=
  fun t =>
    match m t with
    | (Fulfilled a, t') => k a t'
    | (Rejected e, t') => (Rejected e, t')
    end.

#[global] Instance TAsync_ret : MRet TAsync := @t_resolve.
#[global] Instance TAsync_bind : MBind TAsync :=
  fun A B k m => t_and_then m k.

Definition timed {A} (f : Timed -> Outcome A * Timed) : TAsync A := f.

Definition t_emit (e : Event) : TAsync unit :=
  timed (fun t =>
    (Fulfilled tt,
     mkTimed (t_storage t) (t_pending t) (t_timeline t ++ [Called e]))).

(** [array.map(callback)], the callback calling into the host. *)
Fixpoint timed_map {A B} (f : A -> TAsync B) (l : list A)
  : TAsync (list B) :=
  match l with
  | [] => mret []
  | x :: rest => y ← f x; ys ← timed_map f rest; mret (y :: ys)
  end.

Section Pace.

Variable hurry : string -> bool.

(** [caches.keys()]: the caches that exist at this moment. *)
Definition timed_caches_keys : TAsync (list string) :=
  t_emit EvCachesKeys ;;
  timed (fun t => (Fulfilled (map fst (t_storage t)), t)).

(** [caches.delete(name)], not awaited: the promise, named after the
    cache.  The deletion is carried out now or left pending. *)
Definition timed_caches_delete (name : string) : TAsync string :=
  t_emit (EvCachesDelete name) ;;
  timed (fun t =>
    if hurry name then
      (Fulfilled name,
       mkTimed (storage_delete (t_storage t) name) (t_pending t)
         (t_timeline t ++ [Carried name]))
    else
      (Fulfilled name,
       mkTimed (t_storage t) (t_pending t ++ [name]) (t_timeline t))).

Definition awaited (promises : list string) (name : string) : bool :=
  existsb (String.eqb name) promises.

(** Waiting for [Promise.all(promises)]: the computation goes on when
    every one of the promises has settled, that is, once the host has
    carried out each of their deletions that was still pending. *)
Definition timed_await_all (promises : list string) : TAsync unit :=
  timed (fun t =>
    let due := List.filter (awaited promises) (t_pending t) in
    (Fulfilled tt,
     mkTimed (foldl storage_delete (t_storage t) due)
       (List.filter (fun name => negb (awaited promises name)) (t_pending t))
       (t_timeline t ++ map Carried due))).

(** The activate listener (the promise handed to [event.waitUntil]): the
    first [then] callback returns [Promise.all] of the promises that
    [map] collected, so the second callback runs when they have all
    settled. *)
Definition onActivateTimed : TAsync unit :=
  t_emit (EvConsoleLog ["[SW] Activating new Service Worker…"]) ;;
  cacheNames ← timed_caches_keys;
  promises ←
    timed_map
      (fun name =>
         t_emit (EvConsoleLog ["[SW] Deleting old cache:"; name]) ;;
         timed_caches_delete name)
      (List.filter (fun name => negb (String.eqb name CACHE_NAME))
         cacheNames);
  timed_await_all promises ;;
  t_emit (EvConsoleLog ["[SW] Activation complete — claiming all clients"]) ;;
  t_emit EvClientsClaim.

(** For comparison only, not in the source: the listener as it would be
    if the first callback dropped the promises instead of returning
    [Promise.all] of them. *)
Definition onActivateUnawaited : TAsync unit :=
  t_emit (EvConsoleLog ["[SW] Activating new Service Worker…"]) ;;
  cacheNames ← timed_caches_keys;
  promises ←
    timed_map
      (fun name =>
         t_emit (EvConsoleLog ["[SW] Deleting old cache:"; name]) ;;
         timed_caches_delete name)
      (List.filter (fun name => negb (String.eqb name CACHE_NAME))
         cacheNames);
  t_emit (EvConsoleLog ["[SW] Activation complete — claiming all clients"]) ;;
  t_emit EvClientsClaim.

End Pace.

(** ** Observations

    What the theorems below say about a run is said with these. *)

(** The entry a named cache holds for a key. *)
Definition cache_entry
    (st : list (string * gmap (string * string) ResponseData))
    (name : string) (key : string * string) : option ResponseData :=
  match storage_lookup st name with
  | Some c => c !! key
  | None => None
  end.

(** The requests fetched from the network, in order. *)
Definition fetches (tr : list Event) : list Request :=
  omap (fun e => match e with EvFetch r => Some r | _ => None end) tr.

(** The caches written to, in order. *)
Definition puts (tr : list Event) : list string :=
  omap (fun e => match e with EvCachePut n _ => Some n | _ => None end) tr.

(** The request is a document navigation, or its accept header names
    HTML. *)
Definition wants_html (request : Request) : bool :=
  String.eqb (destination request) "document" ||
  match headers_get (req_headers request) "accept" with
  | Some accept => includes accept "text/html"
  | None => false
  end.

(** The storing step both strategies apply to the response they fetched. *)
Definition store_if_ok (request : Request) (networkResponse : Ref)
  : Async unit :=
  o ← deref networkResponse;
  if truthy_object networkResponse && (status (contents o) =? 200) then
    cache ← caches_open CACHE_NAME;
    clone ← response_clone networkResponse;
    detached (cache_put cache request clone)
  else mret tt.

(** The two responses the fallback can build. *)
Definition fallback_page : ResponseData :=
  mkResponseData 200 "" [("content-type", "text/html; charset=utf-8")]
    OFFLINE_PAGE.

Definition fallback_unavailable : ResponseData :=
  mkResponseData 503 "Service Unavailable"
    [("content-type", "text/plain;charset=UTF-8")] "Offline".

(** [serves st name key d]: going through the caches in creation order,
    the first one holding [key] is called [name], and it holds [d]. *)
Inductive serves :
  list (string * gmap (string * string) ResponseData) ->
  string -> string * string -> ResponseData -> Prop :=
| serves_here name c rest key d :
    c !! key = Some d -> serves ((name, c) :: rest) name key d
| serves_later n c rest name key d :
    c !! key = None -> serves rest name key d ->
    serves ((n, c) :: rest) name key d.

(** The strategy fulfilled, with a response carrying the entry the store
    held for the request when it was called, or else what the fallback
    builds for the request. *)
Definition answered_offline (request : Request) (w : World)
    (result : Outcome Ref * World) : Prop :=
  exists r,
    result.1 = Fulfilled r
    /\ objects result.2 !! r =
       Some (mkResponseObj
               (match storage_match (storage w) (request_key request) with
                | Some d => d
                | None => if wants_html request then fallback_page
                          else fallback_unavailable
                end) false).

(** What a strategy can have done to the storage and which caches it put
    into: nothing, or one entry put into the current cache. *)
Definition wrote_current_only (request : Request) (w : World)
    (result : Outcome Ref * World) : Prop :=
  (storage result.2 = storage w /\ puts (trace result.2) = puts (trace w))
  \/ exists d,
       storage result.2
       = storage_update (storage_open (storage w) CACHE_NAME) CACHE_NAME
           (fun c => <[request_key request := d]> c)
       /\ puts (trace result.2) = (puts (trace w) ++ [CACHE_NAME])%list.

(** The requests [cache.addAll] makes for the manifest. *)
Definition precache_requests (absolute : string -> URL) : list Request :=
  map (fun u => mkRequest "GET" (absolute u) "" []) PRECACHE_ASSETS.

(** The names [onActivate] deletes: every listed name but the current. *)
Definition stale_names
    (st : list (string * gmap (string * string) ResponseData))
  : list string :=
  List.filter (fun name => negb (String.eqb name CACHE_NAME)) (map fst st).

(** What deleting one stale cache leaves in the trace. *)
Definition sweep_events (name : string) : list Event :=
  [EvConsoleLog ["[SW] Deleting old cache:"; name]; EvCachesDelete name].

(** The message is an object whose [type] property is the string [t]. *)
Definition has_type (data : JsValue) (t : string) : Prop :=
  exists props,
    data = JsObject props /\ own_property props "type" = Some (JsString t).

(** *** Hosts and requests for the examples *)

(** A host for the examples: every URL of the journal's origin. *)
Definition journal_url (path : string) : URL :=
  mkURL ("https://journal.example" +:+ path) "https:" "journal.example".

(** A network on which one manifest asset cannot be fetched. *)
Definition network_without_icon (request : Request) : NetResult :=
  if String.eqb (href (url request)) "https://journal.example/icon-512.png"
  then NetFailure (NetworkError "Failed to fetch")
  else NetResponse (mkResponseData 200 "OK" [] "asset").

(** A network that is down. *)
Definition network_down (request : Request) : NetResult :=
  NetFailure (NetworkError "Failed to fetch").

(** A network that answers every request with a 200 response. *)
Definition network_up (request : Request) : NetResult :=
  NetResponse (mkResponseData 200 "OK" [("content-type", "image/png")] "fresh").

(** A GET request to the journal's origin. *)
Definition journal_get (path destination : string) : Request :=
  mkRequest "GET" (journal_url path) destination [].

(** A stylesheet of one of the font hosts. *)
Definition font_request : Request :=
  mkRequest "GET"
    (mkURL "https://fonts.googleapis.com/css2?family=Inter" "https:"
       "fonts.googleapis.com")
    "style" [].

Definition post_request : Request :=
  mkRequest "POST" (journal_url "/api/entries") "" [].

Definition extension_request : Request :=
  mkRequest "GET"
    (mkURL "chrome-extension://abcdef/popup.js" "chrome-extension:" "abcdef")
    "script" [].

Definition stored_png : ResponseData :=
  mkResponseData 200 "OK" [("content-type", "image/png")] "PNG".

Definition empty_world : World := mkWorld [] [] [].

(** The current generation holds /a.png. *)
Definition world_with_png : World :=
  mkWorld
    [(CACHE_NAME, {[ request_key (journal_get "/a.png" "image") := stored_png ]})]
    [] [].

(** An older generation holds /a.png, the current one is empty. *)
Definition world_two_generations : World :=
  mkWorld
    [("space-observation-journal-v0",
      {[ request_key (journal_get "/a.png" "image") := stored_png ]});
     (CACHE_NAME, ∅)]
    [] [].

(** *** Further observations *)

(** The generations created before the one called [name]: the caches a
    lookup goes through before it reaches that one. *)
Fixpoint generations_before (name : string)
    (st : list (string * gmap (string * string) ResponseData))
  : list (string * gmap (string * string) ResponseData) :=
  match st with
  | [] => []
  | (n, c) :: rest =>
      if String.eqb n name then [] else (n, c) :: generations_before name rest
  end.

(** The call fulfilled with a response allocated during the call, whose
    body is unread; the objects that existed before are as they were. *)
Definition fresh_unread (w : World) (result : Outcome Ref * World) : Prop :=
  exists o added,
    result.1 = Fulfilled (length (objects w))
    /\ objects result.2 = (objects w ++ o :: added)%list
    /\ bodyUsed o = false.

(** The storage is as it was, or it differs by the network's status-200
    answer to the request, put under the request's key in the current
    cache. *)
Definition stored_at_most_answer (network : Request -> NetResult)
    (request : Request) (w : World) (result : Outcome Ref * World) : Prop :=
  storage result.2 = storage w
  \/ exists d,
       network request = NetResponse d
       /\ status d = 200
       /\ storage result.2
          = storage_update (storage_open (storage w) CACHE_NAME) CACHE_NAME
              (fun c => <[request_key request := d]> c).

(** The entry under [key] of the cache [name] is as it was, or it is the
    request's own entry in the current cache and now holds the network's
    status-200 answer. *)
Definition entry_kept_or_refreshed (network : Request -> NetResult)
    (request : Request) (w : World) (name : string) (key : string * string)
    (result : Outcome Ref * World) : Prop :=
  cache_entry (storage result.2) name key = cache_entry (storage w) name key
  \/ (name = CACHE_NAME
      /\ key = request_key request
      /\ exists d,
           network request = NetResponse d
           /\ status d = 200
           /\ cache_entry (storage result.2) name key = Some d).

(** The request is a document navigation, or the value of its accept
    header has the text "text/html" somewhere in it. *)
Definition html_wanted (request : Request) : Prop :=
  destination request = "document"
  \/ exists accept pre post,
       headers_get (req_headers request) "accept" = Some accept
       /\ accept = pre +:+ "text/html" +:+ post.

(** The network answers the request with a response in the ok range,
    which is what [cache.addAll] asks of each manifest URL. *)
Definition precached (network : Request -> NetResult) (request : Request)
  : Prop :=
  exists d, network request = NetResponse d /\ response_ok d = true.

(** How often the worker asked to skip waiting. *)
Definition skip_calls (tr : list Event) : nat :=
  length
    (omap (fun e => match e with EvSkipWaiting => Some tt | _ => None end) tr).

(** The errors the worker warned about on the console, in order. *)
Definition warnings (tr : list Event) : list JsError :=
  omap (fun e => match e with EvConsoleWarn _ err => Some err | _ => None end)
    tr.

(** The caches deleted, in order. *)
Definition deletions (tr : list Event) : list string :=
  omap (fun e => match e with EvCachesDelete n => Some n | _ => None end) tr.

(** Every entry of every cache is keyed by a GET request and holds a
    response with a status in the ok range. *)
Definition store_ok
    (st : list (string * gmap (string * string) ResponseData)) : Prop :=
  Forall
    (fun c =>
       map_Forall (fun k d => fst k = "GET" /\ response_ok d = true) (snd c))
    st.

(** The events the host delivers to the worker, each with the network as
    it is at that moment. *)
Inductive HostEvent :=
| InstallEvent (network : Request -> NetResult)
| ActivateEvent
| FetchEvent (network : Request -> NetResult) (request : Request)
| MessageEvent (data : JsValue).

(** The world after the listener for one event has run. *)
Definition deliver (absolute : string -> URL) (w : World) (ev : HostEvent)
  : World :=
  match ev with
  | InstallEvent network => (onInstall network absolute w).2
  | ActivateEvent => (onActivate w).2
  | FetchEvent network request => (onFetch network request w).2
  | MessageEvent data => (onMessage data w).2
  end.

(** The world after a sequence of events, from a first visit on. *)
Definition history (absolute : string -> URL) (events : list HostEvent)
  : World :=
  foldl (deliver absolute) (mkWorld [] [] []) events.

(** The host calls of a timeline, in order. *)
Definition calls (tl : list Moment) : list Event :=
  omap (fun m => match m with Called e => Some e | Carried _ => None end) tl.

(** What asking for the deletion of one stale cache leaves in the
    timeline. *)
Definition asked (hurry : string -> bool) (name : string) : list Moment :=
  [Called (EvConsoleLog ["[SW] Deleting old cache:"; name]);
   Called (EvCachesDelete name)]
  ++ (if hurry name then [Carried name] else []).

(** The protocols of the URLs a browser can hand to a fetch listener or
    build a request for: http and https, the extension schemes, and the
    other schemes browsers know. *)
Definition fetch_event_protocols : list string :=
  ["http:"; "https:"; "chrome-extension:"; "moz-extension:";
   "safari-web-extension:"; "ws:"; "wss:"; "ftp:"; "file:"; "about:";
   "blob:"; "data:"; "filesystem:"; "javascript:"; "mailto:"; "chrome:";
   "view-source:"; "resource:"; "tel:"].

(** ** Facts about the host model *)

Section StorageFacts.

Implicit Types st : list (string * gmap (string * string) ResponseData).
Implicit Types key : string * string.
Implicit Types name : string.

Lemma storage_open_cons_ne st n c name :
  n ≠ name ->
  storage_open ((n, c) :: st) name = (n, c) :: storage_open st name.
Proof.
  intros Hne. unfold storage_open. simpl.
  apply String.eqb_neq in Hne. rewrite Hne.
  destruct (storage_lookup st name); reflexivity.
Qed.

Lemma storage_open_cons_eq st c name :
  storage_open ((name, c) :: st) name = (name, c) :: st.
Proof. unfold storage_open. simpl. rewrite String.eqb_refl. reflexivity. Qed.

(** A key that no cache held is found, once written to the opened cache. *)
Lemma storage_match_written st name key d :
  storage_match st key = None ->
  storage_match
    (storage_update (storage_open st name) name (fun c => <[key := d]> c))
    key = Some d.
Proof.
  induction st as [|[n c] rest IH]; intros Hmiss.
  - unfold storage_open. simpl. rewrite String.eqb_refl. simpl.
    rewrite lookup_insert_eq. reflexivity.
  - simpl in Hmiss. destruct (c !! key) eqn:Hc; [discriminate|].
    destruct (String.eqb n name) eqn:Hn.
    + apply String.eqb_eq in Hn. subst n. rewrite storage_open_cons_eq.
      simpl. rewrite String.eqb_refl. simpl.
      rewrite lookup_insert_eq. reflexivity.
    + rewrite storage_open_cons_ne by (apply String.eqb_neq; exact Hn).
      simpl. rewrite Hn. simpl. rewrite Hc. apply IH. exact Hmiss.
Qed.

(** The written entry is in the cache it was written to. *)
Lemma cache_entry_written st name key d :
  cache_entry
    (storage_update (storage_open st name) name (fun c => <[key := d]> c))
    name key = Some d.
Proof.
  unfold cache_entry.
  induction st as [|[n c] rest IH].
  - unfold storage_open. simpl. rewrite String.eqb_refl. simpl.
    rewrite String.eqb_refl. apply lookup_insert_eq.
  - destruct (String.eqb n name) eqn:Hn.
    + apply String.eqb_eq in Hn. subst n. rewrite storage_open_cons_eq.
      simpl. rewrite String.eqb_refl. simpl. rewrite String.eqb_refl.
      apply lookup_insert_eq.
    + rewrite storage_open_cons_ne by (apply String.eqb_neq; exact Hn).
      simpl. rewrite Hn. simpl. rewrite Hn. exact IH.
Qed.

(** Opening and writing one cache leaves every other cache as it was. *)
Lemma storage_lookup_written_ne st name other f :
  other ≠ name ->
  storage_lookup (storage_update (storage_open st name) name f) other
  = storage_lookup st other.
Proof.
  intros Hne. induction st as [|[n c] rest IH].
  - unfold storage_open. simpl. rewrite String.eqb_refl. simpl.
    apply not_eq_sym in Hne. apply String.eqb_neq in Hne. rewrite Hne.
    reflexivity.
  - destruct (String.eqb n name) eqn:Hn.
    + apply String.eqb_eq in Hn. subst n. rewrite storage_open_cons_eq.
      simpl. rewrite String.eqb_refl. simpl.
      apply not_eq_sym in Hne. apply String.eqb_neq in Hne. rewrite Hne.
      reflexivity.
    + rewrite storage_open_cons_ne by (apply String.eqb_neq; exact Hn).
      simpl. rewrite Hn. simpl.
      destruct (String.eqb n other); [reflexivity | exact IH].
Qed.

(** Cache names stay pairwise distinct under the operations of the
    CacheStorage. *)
Lemma storage_lookup_None_names st name :
  storage_lookup st name = None <-> name ∉ map fst st.
Proof.
  induction st as [|[n c] st IH]; simpl.
  - split; [intros _; apply not_elem_of_nil | reflexivity].
  - rewrite not_elem_of_cons. destruct (String.eqb n name) eqn:Hn.
    + apply String.eqb_eq in Hn.
      split; [discriminate | intros [Hne _]; congruence].
    + apply String.eqb_neq in Hn. rewrite IH.
      split; [intros H; split; [congruence | exact H] | intros [_ H]; exact H].
Qed.

Lemma storage_open_NoDup st name :
  NoDup (map fst st) -> NoDup (map fst (storage_open st name)).
Proof.
  intros Hnd. unfold storage_open.
  destruct (storage_lookup st name) eqn:Hl; [exact Hnd|].
  rewrite map_app. simpl. apply NoDup_app. split; [exact Hnd|]. split.
  - intros x Hx Hin. apply list_elem_of_singleton in Hin. subst x.
    apply storage_lookup_None_names in Hl. contradiction.
  - apply NoDup_singleton.
Qed.

Lemma storage_update_names st name f :
  map fst (storage_update st name f) = map fst st.
Proof.
  induction st as [|[n c] st IH]; [reflexivity|].
  simpl. destruct (String.eqb n name); simpl;
    [reflexivity | f_equal; exact IH].
Qed.

Lemma storage_delete_NoDup st name :
  NoDup (map fst st) -> NoDup (map fst (storage_delete st name)).
Proof.
  induction st as [|[n c] st IH]; simpl; [intros H; exact H|].
  intros [Hn Hnd]%NoDup_cons. destruct (negb (String.eqb n name)); simpl.
  - apply NoDup_cons. split; [|apply IH; exact Hnd].
    intros Hin. apply Hn. clear - Hin.
    induction st as [|[n' c'] st IHst]; simpl in *; [exact Hin|].
    destruct (negb (String.eqb n' name)); simpl in *.
    + apply elem_of_cons in Hin as [->|Hin];
        [left | right; apply IHst; exact Hin].
    + right. apply IHst. exact Hin.
  - apply IH. exact Hnd.
Qed.

End StorageFacts.

(** ** Running the strategies *)

Ltac run :=
  unfold caches_match, caches_open, caches_keys, caches_delete, cache_put,
    response_clone, fetch, deref, alloc, new_Response, console_warn,
    console_log, skipWaiting, clients_claim, emit, detached, try_catch, host,
    reject, set_trace, set_storage, set_objects, mbind, mret, Async_bind,
    Async_ret, and_then, resolve; cbn.

(** An awaited computation that fulfils hands its value on. *)
Lemma bind_fulfilled {A B} (m : Async A) (k : A -> Async B)
    (w : World) (a : A) (w' : World) :
  m w = (Fulfilled a, w') -> (m ≫= k) w = k a w'.
Proof.
  intros Hm. unfold mbind, Async_bind, and_then. rewrite Hm. reflexivity.
Qed.

Section StrategyRuns.

Variable network : Request -> NetResult.

Implicit Types st : list (string * gmap (string * string) ResponseData).
Implicit Types os : list ResponseObj.
Implicit Types tr : list Event.

(** The storing step on the response just fetched: for status 200 the
    current cache is opened, a clone is allocated next to the response and
    the clone, not the response, is the object [put] consumes. *)
Lemma store_if_ok_run st os tr request d :
  store_if_ok request (length os)
    (mkWorld st (os ++ [mkResponseObj d false]) tr) =
  (Fulfilled tt,
   if status d =? 200 then
     mkWorld (storage_update (storage_open st CACHE_NAME) CACHE_NAME
                (fun c => <[request_key request := d]> c))
             (os ++ [mkResponseObj d false; mkResponseObj d true])
             (tr ++ [EvCachesOpen CACHE_NAME;
                     EvCachePut CACHE_NAME (request_key request)])
   else mkWorld st (os ++ [mkResponseObj d false]) tr).
Proof.
  unfold store_if_ok. run.
  rewrite list_lookup_middle by reflexivity. cbn.
  destruct (status d =? 200); cbn; [|reflexivity].
  rewrite list_lookup_middle by reflexivity. cbn.
  rewrite list_lookup_middle by reflexivity. cbn.
  rewrite (insert_app_r_alt _ _ (length (os ++ [mkResponseObj d false])))
    by lia.
  rewrite Nat.sub_diag. cbn.
  rewrite <- !app_assoc. reflexivity.
Qed.

(** Both strategies, with the storing step named. *)
Lemma cacheFirstStrategy_steps request :
  cacheFirstStrategy network request =
  try_catch
    (cachedResponse ← caches_match request;
     match cachedResponse with
     | Some r => mret r
     | None =>
         networkResponse ← fetch network request;
         store_if_ok request networkResponse ;;
         mret networkResponse
     end)
    (fun error =>
       console_warn "[SW] Cache-first fetch failed:" error ;;
       offlineFallback request).
Proof. reflexivity. Qed.

Lemma networkFirstStrategy_steps request :
  networkFirstStrategy network request =
  try_catch
    (networkResponse ← fetch network request;
     store_if_ok request networkResponse ;;
     mret networkResponse)
    (fun error =>
       cachedResponse ← caches_match request;
       match cachedResponse with
       | Some r => mret r
       | None => offlineFallback request
       end).
Proof. reflexivity. Qed.

Lemma cacheFirst_hit_run st os tr request d :
  storage_match st (request_key request) = Some d ->
  cacheFirstStrategy network request (mkWorld st os tr) =
  (Fulfilled (length os),
   mkWorld st (os ++ [mkResponseObj d false])
     (tr ++ [EvCachesMatch (request_key request)])).
Proof.
  intros Hhit. rewrite cacheFirstStrategy_steps. run. rewrite Hhit. reflexivity.
Qed.

Lemma cacheFirst_miss_run st os tr request d :
  storage_match st (request_key request) = None ->
  network request = NetResponse d ->
  cacheFirstStrategy network request (mkWorld st os tr) =
  (Fulfilled (length os),
   if status d =? 200 then
     mkWorld (storage_update (storage_open st CACHE_NAME) CACHE_NAME
                (fun c => <[request_key request := d]> c))
             (os ++ [mkResponseObj d false; mkResponseObj d true])
             (tr ++ [EvCachesMatch (request_key request); EvFetch request;
                     EvCachesOpen CACHE_NAME;
                     EvCachePut CACHE_NAME (request_key request)])
   else mkWorld st (os ++ [mkResponseObj d false])
          (tr ++ [EvCachesMatch (request_key request); EvFetch request])).
Proof.
  intros Hmiss Hnet. rewrite cacheFirstStrategy_steps. run.
  rewrite Hmiss. cbn. rewrite Hnet. cbn.
  rewrite store_if_ok_run.
  destruct (status d =? 200); rewrite <- !app_assoc; reflexivity.
Qed.

Lemma offlineFallback_run st os tr request :
  offlineFallback request (mkWorld st os tr) =
  (Fulfilled (length os),
   mkWorld st
     (os ++ [mkResponseObj
               (if wants_html request then fallback_page
                else fallback_unavailable) false])
     tr).
Proof.
  unfold offlineFallback. fold (wants_html request).
  destruct (wants_html request); reflexivity.
Qed.

Lemma cacheFirst_down_run st os tr request e :
  storage_match st (request_key request) = None ->
  network request = NetFailure e ->
  cacheFirstStrategy network request (mkWorld st os tr) =
  offlineFallback request
    (mkWorld st os
       (tr ++ [EvCachesMatch (request_key request); EvFetch request;
               EvConsoleWarn "[SW] Cache-first fetch failed:" e])).
Proof.
  intros Hmiss Hnet. rewrite cacheFirstStrategy_steps. run.
  rewrite Hmiss. cbn. rewrite Hnet. cbn.
  rewrite <- !app_assoc. reflexivity.
Qed.

Lemma networkFirst_up_run st os tr request d :
  network request = NetResponse d ->
  networkFirstStrategy network request (mkWorld st os tr) =
  (Fulfilled (length os),
   if status d =? 200 then
     mkWorld (storage_update (storage_open st CACHE_NAME) CACHE_NAME
                (fun c => <[request_key request := d]> c))
             (os ++ [mkResponseObj d false; mkResponseObj d true])
             (tr ++ [EvFetch request; EvCachesOpen CACHE_NAME;
                     EvCachePut CACHE_NAME (request_key request)])
   else mkWorld st (os ++ [mkResponseObj d false]) (tr ++ [EvFetch request])).
Proof.
  intros Hnet. rewrite networkFirstStrategy_steps. run. rewrite Hnet. cbn.
  rewrite store_if_ok_run.
  destruct (status d =? 200); rewrite <- ?app_assoc; reflexivity.
Qed.

Lemma networkFirst_down_hit_run st os tr request e d :
  network request = NetFailure e ->
  storage_match st (request_key request) = Some d ->
  networkFirstStrategy network request (mkWorld st os tr) =
  (Fulfilled (length os),
   mkWorld st (os ++ [mkResponseObj d false])
     (tr ++ [EvFetch request; EvCachesMatch (request_key request)])).
Proof.
  intros Hnet Hhit. rewrite networkFirstStrategy_steps. run. rewrite Hnet. cbn.
  rewrite Hhit. cbn. rewrite <- !app_assoc. reflexivity.
Qed.

Lemma networkFirst_down_miss_run st os tr request e :
  network request = NetFailure e ->
  storage_match st (request_key request) = None ->
  networkFirstStrategy network request (mkWorld st os tr) =
  offlineFallback request
    (mkWorld st os
       (tr ++ [EvFetch request; EvCachesMatch (request_key request)])).
Proof.
  intros Hnet Hmiss. rewrite networkFirstStrategy_steps. run. rewrite Hnet. cbn.
  rewrite Hmiss. cbn. rewrite <- !app_assoc. reflexivity.
Qed.

End StrategyRuns.

(** ** The strategies: what the page receives and what the store keeps *)

(** C1.  Cache-first, hit: for a GET request whose key the store holds,
    the strategy fulfils with a response carrying the stored snapshot, its
    only call into the host is the lookup, and no request goes to the
    network (the outcome does not depend on the network at all). *)
Theorem cacheFirst_hit_no_fetch (network : Request -> NetResult)
    (w : World) (request : Request) (d : ResponseData) :
  method request = "GET" ->
  storage_match (storage w) (request_key request) = Some d ->
  cacheFirstStrategy network request w =
    (Fulfilled (length (objects w)),
     mkWorld (storage w) (objects w ++ [mkResponseObj d false])
       (trace w ++ [EvCachesMatch (request_key request)]))
  /\ fetches (trace (cacheFirstStrategy network request w).2)
     = fetches (trace w).
Proof.
  intros _ Hhit. destruct w as [st os tr]. cbn in *.
  rewrite (cacheFirst_hit_run network st os tr request d Hhit).
  split; [reflexivity|]. cbn. unfold fetches.
  rewrite omap_app. cbn. apply app_nil_r.
Qed.

Lemma cacheFirst_hit_no_fetch_witness :
  let request := journal_get "/a.png" "image" in
  method request = "GET"
  /\ storage_match (storage world_with_png) (request_key request)
     = Some stored_png
  /\ cacheFirstStrategy network_down request world_with_png =
       (Fulfilled 0%nat,
        mkWorld (storage world_with_png) [mkResponseObj stored_png false]
          [EvCachesMatch (request_key request)])
  /\ fetches (trace (cacheFirstStrategy network_down request world_with_png).2)
     = [].
Proof.
  cbn zeta. split; [reflexivity|]. split; [vm_compute; reflexivity|].
  apply (cacheFirst_hit_no_fetch network_down world_with_png
           (journal_get "/a.png" "image") stored_png).
  - reflexivity.
  - vm_compute. reflexivity.
Defined.

(** C2.  Cache-first, miss: the request goes to the network once.  When the
    network answers, the strategy fulfils with that very response object,
    its contents and its unread body untouched; the store then holds the
    response under the request key exactly when the status is 200, in
    which case what was handed to [put] (and consumed by it) is a second
    object with the same contents, written to the current cache; for any
    other status the storage is unchanged and nothing is put. *)
Theorem cacheFirst_miss_stores_only_200 (network : Request -> NetResult)
    (w : World) (request : Request) :
  storage_match (storage w) (request_key request) = None ->
  let result := cacheFirstStrategy network request w in
  let r := length (objects w) in
  fetches (trace result.2) = (fetches (trace w) ++ [request])%list
  /\ match network request with
     | NetResponse d =>
         result.1 = Fulfilled r
         /\ objects result.2 !! r = Some (mkResponseObj d false)
         /\ storage_match (storage result.2) (request_key request)
            = (if status d =? 200 then Some d else None)
         /\ (if status d =? 200 then
               objects result.2 !! S r = Some (mkResponseObj d true)
               /\ puts (trace result.2) = (puts (trace w) ++ [CACHE_NAME])%list
             else
               storage result.2 = storage w
               /\ puts (trace result.2) = puts (trace w))
     | NetFailure e =>
         result =
         offlineFallback request
           (mkWorld (storage w) (objects w)
              (trace w ++ [EvCachesMatch (request_key request);
                           EvFetch request;
                           EvConsoleWarn "[SW] Cache-first fetch failed:" e]))
     end.
Proof.
  intros Hmiss. destruct w as [st os tr]. cbn in *.
  destruct (network request) as [d|e] eqn:Hnet.
  - rewrite (cacheFirst_miss_run network st os tr request d Hmiss Hnet).
    unfold fetches, puts.
    destruct (status d =? 200) eqn:Hst; cbn; rewrite !omap_app; cbn.
    + rewrite lookup_app_r by lia. rewrite Nat.sub_diag. cbn.
      rewrite (lookup_app_r os _ (S (length os))) by lia.
      replace (S (length os) - length os)%nat with 1%nat by lia. cbn.
      rewrite storage_match_written by exact Hmiss.
      repeat split; reflexivity.
    + rewrite lookup_app_r by lia. rewrite Nat.sub_diag. cbn.
      rewrite app_nil_r. repeat split; try reflexivity; exact Hmiss.
  - rewrite (cacheFirst_down_run network st os tr request e Hmiss Hnet).
    rewrite offlineFallback_run. cbn. unfold fetches.
    rewrite omap_app. cbn. split; reflexivity.
Qed.

Lemma cacheFirst_miss_stores_only_200_witness :
  let request := journal_get "/b.png" "image" in
  let result := cacheFirstStrategy network_up request empty_world in
  storage_match (storage empty_world) (request_key request) = None
  /\ fetches (trace result.2) = [request]
  /\ result.1 = Fulfilled 0%nat
  /\ objects result.2 !! 0%nat
     = Some (mkResponseObj
               (mkResponseData 200 "OK" [("content-type", "image/png")] "fresh")
               false)
  /\ storage_match (storage result.2) (request_key request)
     = Some (mkResponseData 200 "OK" [("content-type", "image/png")] "fresh")
  /\ objects result.2 !! 1%nat
     = Some (mkResponseObj
               (mkResponseData 200 "OK" [("content-type", "image/png")] "fresh")
               true)
  /\ puts (trace result.2) = [CACHE_NAME].
Proof.
  cbn zeta. split; [reflexivity|].
  exact (cacheFirst_miss_stores_only_200 network_up empty_world
           (journal_get "/b.png" "image") eq_refl).
Defined.

(** C3.  Network-first: the first call into the host is the fetch.  When
    the network answers, the strategy fulfils with that response object,
    untouched, and for status 200 a second object with the same contents
    has been put into the current cache under the request key.  When the
    fetch throws, the strategy fulfils with the entry the store holds for
    the key; only when the store holds none is the result the one of
    [offlineFallback]. *)
Theorem networkFirst_network_then_store_then_fallback
    (network : Request -> NetResult) (w : World) (request : Request) :
  let result := networkFirstStrategy network request w in
  let r := length (objects w) in
  (exists rest, trace result.2 = (trace w ++ EvFetch request :: rest)%list)
  /\ match network request with
     | NetResponse d =>
         result.1 = Fulfilled r
         /\ objects result.2 !! r = Some (mkResponseObj d false)
         /\ (if status d =? 200 then
               cache_entry (storage result.2) CACHE_NAME (request_key request)
               = Some d
               /\ objects result.2 !! S r = Some (mkResponseObj d true)
             else storage result.2 = storage w)
     | NetFailure _ =>
         match storage_match (storage w) (request_key request) with
         | Some d =>
             result.1 = Fulfilled r
             /\ objects result.2 !! r = Some (mkResponseObj d false)
             /\ storage result.2 = storage w
         | None =>
             result =
             offlineFallback request
               (mkWorld (storage w) (objects w)
                  (trace w ++ [EvFetch request;
                               EvCachesMatch (request_key request)]))
         end
     end.
Proof.
  destruct w as [st os tr]. cbn.
  destruct (network request) as [d|e] eqn:Hnet.
  - rewrite (networkFirst_up_run network st os tr request d Hnet).
    destruct (status d =? 200) eqn:Hst; cbn.
    + split; [eexists; reflexivity|].
      rewrite lookup_app_r by lia. rewrite Nat.sub_diag. cbn.
      rewrite (lookup_app_r os _ (S (length os))) by lia.
      replace (S (length os) - length os)%nat with 1%nat by lia. cbn.
      rewrite cache_entry_written. repeat split; reflexivity.
    + split; [eexists; reflexivity|].
      rewrite lookup_app_r by lia. rewrite Nat.sub_diag. cbn.
      repeat split; reflexivity.
  - destruct (storage_match st (request_key request)) as [d|] eqn:Hst.
    + rewrite (networkFirst_down_hit_run network st os tr request e d Hnet Hst).
      cbn. split; [eexists; reflexivity|].
      rewrite lookup_app_r by lia. rewrite Nat.sub_diag. cbn.
      repeat split; reflexivity.
    + rewrite (networkFirst_down_miss_run network st os tr request e Hnet Hst).
      rewrite offlineFallback_run. cbn. split; [eexists|]; reflexivity.
Qed.

(** ** Failures of the network *)

(** C8.  When the network fails for the request, neither strategy rejects:
    each fulfils with a response, the stored entry when the store has one
    for the key and the fallback otherwise. *)
Theorem strategies_absorb_network_failure
    (network : Request -> NetResult) (w : World) (request : Request)
    (e : JsError) :
  network request = NetFailure e ->
  answered_offline request w (cacheFirstStrategy network request w)
  /\ answered_offline request w (networkFirstStrategy network request w).
Proof.
  intros Hnet. destruct w as [st os tr]. unfold answered_offline. cbn.
  destruct (storage_match st (request_key request)) as [d|] eqn:Hst.
  - rewrite (cacheFirst_hit_run network st os tr request d Hst).
    rewrite (networkFirst_down_hit_run network st os tr request e d Hnet Hst).
    cbn. split; exists (length os);
      (split; [reflexivity|]);
      rewrite lookup_app_r by lia; rewrite Nat.sub_diag; reflexivity.
  - rewrite (cacheFirst_down_run network st os tr request e Hst Hnet).
    rewrite (networkFirst_down_miss_run network st os tr request e Hnet Hst).
    rewrite !offlineFallback_run. cbn.
    split; exists (length os);
      (split; [reflexivity|]);
      rewrite lookup_app_r by lia; rewrite Nat.sub_diag; reflexivity.
Qed.

Lemma strategies_absorb_network_failure_witness :
  let request := journal_get "/a.png" "image" in
  network_down request = NetFailure (NetworkError "Failed to fetch")
  /\ answered_offline request world_two_generations
       (cacheFirstStrategy network_down request world_two_generations)
  /\ answered_offline request world_two_generations
       (networkFirstStrategy network_down request world_two_generations).
Proof.
  cbn zeta. split; [reflexivity|].
  apply (strategies_absorb_network_failure network_down world_two_generations
           (journal_get "/a.png" "image") (NetworkError "Failed to fetch")).
  reflexivity.
Defined.

(** ** The fallback *)

(** The fallback depends on the request alone and touches neither the
    storage nor the trace nor any existing object: it only allocates the
    response it returns. *)
Lemma offlineFallback_allocates_only (w : World) (request : Request) :
  let result := offlineFallback request w in
  result.1 = Fulfilled (length (objects w))
  /\ storage result.2 = storage w
  /\ trace result.2 = trace w
  /\ objects result.2 =
     (objects w ++ [mkResponseObj
                      (if wants_html request then fallback_page
                       else fallback_unavailable) false])%list.
Proof.
  destruct w as [st os tr]. cbn. rewrite offlineFallback_run. cbn.
  repeat split; reflexivity.
Qed.

(** A request for a document, or one accepting HTML, gets the offline page
    with status 200. *)
Lemma wants_html_iff (request : Request) :
  wants_html request = true <->
  destination request = "document"
  \/ exists accept,
       headers_get (req_headers request) "accept" = Some accept
       /\ includes accept "text/html" = true.
Proof.
  unfold wants_html. rewrite orb_true_iff, String.eqb_eq.
  destruct (headers_get (req_headers request) "accept") as [a|].
  - split; (intros [H|H]; [left; exact H | right]).
    + exists a. split; [reflexivity | exact H].
    + destruct H as (a' & Ha & Hin). injection Ha as <-. exact Hin.
  - split; (intros [H|H]; [left; exact H | exfalso]).
    + discriminate.
    + destruct H as (a' & Ha & _). discriminate.
Qed.

(** C4, at a request for an image sent without an accept header: the
    fallback is the 503 response, and its body is the seven characters
    "Offline", not the empty string. *)
Theorem offlineFallback_image_body_is_Offline :
  let request :=
    mkRequest "GET"
      (mkURL "https://journal.example/icon-192.png" "https:"
         "journal.example")
      "image" [] in
  let result := offlineFallback request (mkWorld [] [] []) in
  result.1 = Fulfilled 0%nat
  /\ objects result.2 =
     [mkResponseObj
        (mkResponseData 503 "Service Unavailable"
           [("content-type", "text/plain;charset=UTF-8")] "Offline") false]
  /\ String.length (body fallback_unavailable) = 7%nat
  /\ body fallback_unavailable <> "".
Proof.
  cbn. repeat split; try reflexivity. discriminate.
Qed.

(** ** Install *)

Section InstallFacts.

Variable network : Request -> NetResult.
Variable absolute : string -> URL.

(** Every manifest URL answered in the ok range: the current cache holds
    them all, and the worker asks to skip waiting. *)
Lemma onInstall_success_run st os tr entries :
  mapM (addAll_entry network) (precache_requests absolute) = Some entries ->
  onInstall network absolute (mkWorld st os tr) =
  (Fulfilled tt,
   mkWorld
     (storage_update (storage_open st CACHE_NAME) CACHE_NAME
        (fun c => foldl (fun c e => <[e.1 := e.2]> c) c entries))
     os
     (tr ++ [EvConsoleLog ["[SW] Installing Space Observation Journal SW…"];
             EvCachesOpen CACHE_NAME;
             EvConsoleLog ["[SW] Pre-caching app shell assets"]]
         ++ map EvFetch (precache_requests absolute)
         ++ [EvConsoleLog ["[SW] Pre-cache complete — skipping waiting"];
             EvSkipWaiting])%list).
Proof.
  unfold onInstall, cache_addAll. fold (precache_requests absolute).
  generalize (precache_requests absolute). intros requests Hall.
  run. rewrite Hall. cbn. rewrite <- !app_assoc. reflexivity.
Qed.

(** One manifest URL failing: nothing is written to the (opened) current
    cache and the worker does not ask to skip waiting, but the rejection of
    [addAll] ends in the [catch] handler, so the promise handed to
    [waitUntil] fulfils. *)
Lemma onInstall_failure_run st os tr :
  mapM (addAll_entry network) (precache_requests absolute) = None ->
  onInstall network absolute (mkWorld st os tr) =
  (Fulfilled tt,
   mkWorld (storage_open st CACHE_NAME) os
     (tr ++ [EvConsoleLog ["[SW] Installing Space Observation Journal SW…"];
             EvCachesOpen CACHE_NAME;
             EvConsoleLog ["[SW] Pre-caching app shell assets"]]
         ++ map EvFetch (precache_requests absolute)
         ++ [EvConsoleWarn "[SW] Pre-cache failed:"
               (TypeError "Request failed")])%list).
Proof.
  unfold onInstall, cache_addAll. fold (precache_requests absolute).
  generalize (precache_requests absolute). intros requests Hfail.
  run. rewrite Hfail. cbn. rewrite <- !app_assoc. reflexivity.
Qed.

End InstallFacts.

(** C5, at a first install during which /icon-512.png cannot be fetched:
    the promise handed to [waitUntil] fulfils, so the host records the
    worker as installed, with a current cache that exists and is empty. *)
Theorem onInstall_failed_precache_still_installs :
  let result :=
    onInstall network_without_icon journal_url (mkWorld [] [] []) in
  mapM (addAll_entry network_without_icon) (precache_requests journal_url)
  = None
  /\ result.1 = Fulfilled tt
  /\ install_settles result.1 = Installed
  /\ storage result.2 = [(CACHE_NAME, ∅)]
  /\ last (trace result.2)
     = Some (EvConsoleWarn "[SW] Pre-cache failed:"
               (TypeError "Request failed"))
  /\ EvSkipWaiting ∉ trace result.2.
Proof.
  assert (Hfail : mapM (addAll_entry network_without_icon)
                    (precache_requests journal_url) = None)
    by (vm_compute; reflexivity).
  cbn zeta.
  rewrite (onInstall_failure_run network_without_icon journal_url
             [] [] [] Hfail).
  split; [exact Hfail|]. cbn.
  repeat split; try reflexivity.
  intros Hin. repeat (apply elem_of_cons in Hin as [Hin|Hin];
                      [discriminate|]).
  apply elem_of_nil in Hin. exact Hin.
Qed.

(** ** Activate *)

Section ActivateFacts.

Implicit Types st : list (string * gmap (string * string) ResponseData).

(** [Promise.all] over callbacks that each fulfil, change the storage and
    extend the trace: their effects follow one another in list order. *)
Lemma promise_all_map_run {A} (f : string -> Async A)
    (value : string -> list (string * gmap (string * string) ResponseData) -> A)
    (step : list (string * gmap (string * string) ResponseData) -> string ->
            list (string * gmap (string * string) ResponseData))
    (events : string -> list Event) :
  (forall n st os tr,
      f n (mkWorld st os tr)
      = (Fulfilled (value n st), mkWorld (step st n) os (tr ++ events n))) ->
  forall names st os tr,
  exists values,
    promise_all (map f names) (mkWorld st os tr)
    = (Fulfilled values,
       mkWorld (foldl step st names) os (tr ++ flat_map events names)).
Proof.
  intros Hf names. induction names as [|n names IH]; intros st os tr.
  - exists []. cbn. rewrite app_nil_r. reflexivity.
  - destruct (IH (step st n) os (tr ++ events n)%list) as [values Hrun].
    exists (value n st :: values).
    cbn [map promise_all]. unfold host. rewrite Hf.
    unfold mbind, Async_bind, and_then. rewrite Hrun.
    cbn. rewrite <- app_assoc. reflexivity.
Qed.

Lemma sweep_all_run (names : list string) st os tr :
  exists flags,
    promise_all
      (map (fun name =>
              console_log ["[SW] Deleting old cache:"; name] ;;
              caches_delete name) names)
      (mkWorld st os tr)
    = (Fulfilled flags,
       mkWorld (foldl storage_delete st names) os
         (tr ++ flat_map sweep_events names)).
Proof.
  apply (promise_all_map_run _
           (fun n st => bool_decide (is_Some (storage_lookup st n)))).
  intros n st' os' tr'. run. rewrite <- app_assoc. reflexivity.
Qed.

Lemma foldl_storage_delete (names : list string) st :
  foldl storage_delete st names
  = List.filter (fun c => negb (existsb (String.eqb (fst c)) names)) st.
Proof.
  revert st. induction names as [|n names IH]; intros st.
  - cbn. induction st as [|c st IHst]; [reflexivity|].
    cbn. f_equal. exact IHst.
  - cbn [foldl]. rewrite IH. unfold storage_delete.
    induction st as [|c st IHst]; [reflexivity|].
    cbn. destruct (String.eqb (fst c) n) eqn:Hn; cbn.
    + exact IHst.
    + destruct (existsb (String.eqb (fst c)) names); cbn;
        [exact IHst | f_equal; exact IHst].
Qed.

(** Deleting the stale names keeps the caches named like the current one,
    and only them. *)
Lemma sweep_keeps_current st :
  foldl storage_delete st (stale_names st)
  = List.filter (fun c => String.eqb (fst c) CACHE_NAME) st.
Proof.
  rewrite foldl_storage_delete. apply List.filter_ext_in.
  intros c Hc. destruct (String.eqb (fst c) CACHE_NAME) eqn:Hcur.
  - apply negb_true_iff. apply not_true_is_false. intros Hex.
    apply existsb_exists in Hex as (n & Hn & Heq).
    apply String.eqb_eq in Heq. subst n. unfold stale_names in Hn.
    apply List.filter_In in Hn as [_ Hn]. rewrite Hcur in Hn. discriminate.
  - apply negb_false_iff. apply existsb_exists. exists (fst c).
    split; [|apply String.eqb_refl].
    unfold stale_names. apply List.filter_In. split.
    + apply List.in_map. exact Hc.
    + rewrite Hcur. reflexivity.
Qed.

Lemma storage_lookup_kept st (name : string) :
  storage_lookup (List.filter (fun c => String.eqb (fst c) name) st) name
  = storage_lookup st name.
Proof.
  induction st as [|[n c] st IH]; [reflexivity|].
  simpl. destruct (String.eqb n name) eqn:Hcur; simpl.
  - rewrite Hcur. reflexivity.
  - exact IH.
Qed.

Lemma names_of_current st :
  NoDup (map fst st) ->
  map fst (List.filter (fun c => String.eqb (fst c) CACHE_NAME) st)
  = if bool_decide (CACHE_NAME ∈ map fst st) then [CACHE_NAME] else [].
Proof.
  induction st as [|[n c] st IH]; intros Hnd.
  - reflexivity.
  - cbn in Hnd. apply NoDup_cons in Hnd as [Hn Hnd]. specialize (IH Hnd).
    cbn. destruct (String.eqb n CACHE_NAME) eqn:Hcur.
    + apply String.eqb_eq in Hcur. subst n. cbn.
      rewrite bool_decide_eq_true_2 by (apply elem_of_cons; left; reflexivity).
      rewrite IH. rewrite bool_decide_eq_false_2 by exact Hn. reflexivity.
    + apply String.eqb_neq in Hcur. rewrite IH.
      destruct (bool_decide (CACHE_NAME ∈ map fst st)) eqn:Hin.
      * apply bool_decide_eq_true_1 in Hin.
        rewrite bool_decide_eq_true_2
          by (apply elem_of_cons; right; exact Hin).
        reflexivity.
      * apply bool_decide_eq_false_1 in Hin.
        rewrite bool_decide_eq_false_2; [reflexivity|].
        intros [Heq|Hin']%elem_of_cons; [congruence | contradiction].
Qed.

Lemma onActivate_run st os tr :
  onActivate (mkWorld st os tr) =
  (Fulfilled tt,
   mkWorld (List.filter (fun c => String.eqb (fst c) CACHE_NAME) st) os
     (tr ++ [EvConsoleLog ["[SW] Activating new Service Worker…"];
             EvCachesKeys]
         ++ flat_map sweep_events (stale_names st)
         ++ [EvConsoleLog ["[SW] Activation complete — claiming all clients"];
             EvClientsClaim])%list).
Proof.
  unfold onActivate.
  rewrite (bind_fulfilled _ _ _ tt
             (mkWorld st os
                (tr ++ [EvConsoleLog ["[SW] Activating new Service Worker…"]])))
    by reflexivity.
  rewrite (bind_fulfilled _ _ _ (map fst st)
             (mkWorld st os
                ((tr ++ [EvConsoleLog ["[SW] Activating new Service Worker…"]])
                   ++ [EvCachesKeys])))
    by reflexivity.
  fold (stale_names st).
  destruct (sweep_all_run (stale_names st) st os
              ((tr ++ [EvConsoleLog ["[SW] Activating new Service Worker…"]])
                 ++ [EvCachesKeys])%list) as [flags Hrun].
  rewrite (bind_fulfilled _ _ _ _ _ Hrun).
  rewrite sweep_keeps_current. run. rewrite <- !app_assoc. reflexivity.
Qed.

End ActivateFacts.

(** Activation on any storage with distinct names: it fulfils, asks for
    the deletion of every listed generation whose tag differs from the
    current one and then claims the clients; afterwards the storage holds
    exactly what it held under the current tag. *)
Lemma onActivate_leaves_at_most_current (w : World) :
  NoDup (map fst (storage w)) ->
  let result := onActivate w in
  result.1 = Fulfilled tt
  /\ map fst (storage result.2)
     = (if bool_decide (CACHE_NAME ∈ map fst (storage w))
        then [CACHE_NAME] else [])
  /\ storage_lookup (storage result.2) CACHE_NAME
     = storage_lookup (storage w) CACHE_NAME
  /\ trace result.2
     = (trace w
        ++ [EvConsoleLog ["[SW] Activating new Service Worker…"];
            EvCachesKeys]
        ++ flat_map sweep_events (stale_names (storage w))
        ++ [EvConsoleLog ["[SW] Activation complete — claiming all clients"];
            EvClientsClaim])%list.
Proof.
  intros Hnd. destruct w as [st os tr]. cbn in *.
  rewrite onActivate_run. cbn.
  split; [reflexivity|]. split; [apply names_of_current; exact Hnd|].
  split; [apply storage_lookup_kept | reflexivity].
Qed.

(** ** The fetch listener *)

(** The listener's tests, in their order: a request whose method is not
    GET is left alone, with no call into the host at all; so is a GET
    request whose protocol does not start with "http"; a GET request to one
    of the two font hosts is answered by the network-first strategy; every
    other GET request is answered by the cache-first strategy. *)
Lemma onFetch_routes_in_order
    (network : Request -> NetResult) (request : Request) (w : World) :
  (method request <> "GET" ->
     onFetch network request w = (Fulfilled None, w))
  /\ (method request = "GET" ->
      startsWith (protocol (url request)) "http" = false ->
      onFetch network request w = (Fulfilled None, w))
  /\ (method request = "GET" ->
      startsWith (protocol (url request)) "http" = true ->
      hostname (url request) = "fonts.googleapis.com"
      \/ hostname (url request) = "fonts.gstatic.com" ->
      onFetch network request w
      = (r ← networkFirstStrategy network request; mret (Some r)) w)
  /\ (method request = "GET" ->
      startsWith (protocol (url request)) "http" = true ->
      hostname (url request) <> "fonts.googleapis.com" ->
      hostname (url request) <> "fonts.gstatic.com" ->
      onFetch network request w
      = (r ← cacheFirstStrategy network request; mret (Some r)) w).
Proof.
  unfold onFetch. repeat split.
  - intros Hm. apply String.eqb_neq in Hm. rewrite Hm. reflexivity.
  - intros Hm Hp. apply String.eqb_eq in Hm. rewrite Hm, Hp. reflexivity.
  - intros Hm Hp Hh. apply String.eqb_eq in Hm. rewrite Hm, Hp.
    destruct Hh as [Hh|Hh]; apply String.eqb_eq in Hh; rewrite Hh;
      rewrite ?orb_true_r; reflexivity.
  - intros Hm Hp Hg Hs. apply String.eqb_eq in Hm. rewrite Hm, Hp.
    apply String.eqb_neq in Hg, Hs. rewrite Hg, Hs. reflexivity.
Qed.

(** ** The message listener *)

(** C9.  A message of type "SKIP_WAITING" makes the worker call
    [skipWaiting] exactly once and do nothing else; for any other value of
    [event.data] the listener calls nothing; in both cases it returns
    normally. *)
Theorem onMessage_skips_waiting_on_request (data : JsValue) (w : World) :
  (has_type data "SKIP_WAITING" ->
     onMessage data w
     = (Fulfilled tt, set_trace w (trace w ++ [EvSkipWaiting])))
  /\ (~ has_type data "SKIP_WAITING" ->
      onMessage data w = (Fulfilled tt, w)).
Proof.
  split.
  - intros (props & -> & Hty). unfold onMessage. cbn.
    unfold mbind, Async_bind, and_then. rewrite Hty. reflexivity.
  - intros Hno. unfold onMessage.
    destruct data as [| |b|n|s|props]; cbn; try reflexivity.
    + destruct b; reflexivity.
    + destruct (negb (n =? 0)); reflexivity.
    + destruct (negb (String.eqb s "")); reflexivity.
    + unfold mbind, Async_bind, and_then.
      destruct (own_property props "type") as [v|] eqn:Hty;
        [|reflexivity].
      destruct v as [| |b|n|t|ps]; try reflexivity.
      cbn. destruct (String.eqb t "SKIP_WAITING") eqn:Ht; [|reflexivity].
      apply String.eqb_eq in Ht. subst t.
      exfalso. apply Hno. exists props. split; [reflexivity | exact Hty].
Qed.

Lemma onMessage_skips_waiting_on_request_witness :
  onMessage (JsObject [("type", JsString "SKIP_WAITING")]) empty_world
  = (Fulfilled tt, mkWorld [] [] [EvSkipWaiting])
  /\ onMessage (JsObject [("type", JsString "PING")]) empty_world
     = (Fulfilled tt, empty_world)
  /\ onMessage JsNull empty_world = (Fulfilled tt, empty_world).
Proof.
  split; [|split].
  - apply (proj1 (onMessage_skips_waiting_on_request
                    (JsObject [("type", JsString "SKIP_WAITING")])
                    empty_world)).
    exists [("type", JsString "SKIP_WAITING")]. split; reflexivity.
  - apply (proj2 (onMessage_skips_waiting_on_request
                    (JsObject [("type", JsString "PING")]) empty_world)).
    intros (props & Hdata & Hty). injection Hdata as <-. discriminate Hty.
  - apply (proj2 (onMessage_skips_waiting_on_request JsNull empty_world)).
    intros (props & Hdata & _). discriminate Hdata.
Defined.

(** ** Which generation is written, which are read *)

Lemma serves_storage_match st name key d :
  serves st name key d -> storage_match st key = Some d.
Proof.
  induction 1 as [name c rest key d Hc | n c rest name key d Hc _ IH]; simpl.
  - rewrite Hc. reflexivity.
  - rewrite Hc. exact IH.
Qed.

Lemma storage_match_serves st key d :
  storage_match st key = Some d -> exists name, serves st name key d.
Proof.
  induction st as [|[n c] rest IH]; simpl; [discriminate|].
  destruct (c !! key) as [d'|] eqn:Hc.
  - intros [= <-]. exists n. apply serves_here. exact Hc.
  - intros Hrest. destruct (IH Hrest) as [name Hs].
    exists name. apply serves_later; assumption.
Qed.

(** A generation that serves an entry is one of the listed ones. *)
Lemma serves_listed st name key d :
  serves st name key d -> is_Some (storage_lookup st name).
Proof.
  induction 1 as [name c rest key d Hc | n c rest name key d Hc _ IH]; simpl.
  - rewrite String.eqb_refl. eexists. reflexivity.
  - destruct (String.eqb n name); [eexists; reflexivity | exact IH].
Qed.

Lemma storage_lookup_swept st (name : string) :
  name <> CACHE_NAME ->
  storage_lookup
    (List.filter (fun c => String.eqb (fst c) CACHE_NAME) st) name = None.
Proof.
  intros Hne. induction st as [|[n c] st IH]; [reflexivity|].
  simpl. destruct (String.eqb n CACHE_NAME) eqn:Hcur; simpl; [|exact IH].
  apply String.eqb_eq in Hcur. subst n.
  apply not_eq_sym in Hne. apply String.eqb_neq in Hne. rewrite Hne.
  exact IH.
Qed.

Section Generations.

Variable network : Request -> NetResult.

Lemma cacheFirst_wrote_current_only w request :
  wrote_current_only request w (cacheFirstStrategy network request w).
Proof.
  destruct w as [st os tr]. unfold wrote_current_only, puts. cbn.
  destruct (storage_match st (request_key request)) as [s|] eqn:Hst.
  - rewrite (cacheFirst_hit_run network st os tr request s Hst). cbn.
    left. rewrite omap_app. cbn. rewrite app_nil_r. split; reflexivity.
  - destruct (network request) as [d|e] eqn:Hnet.
    + rewrite (cacheFirst_miss_run network st os tr request d Hst Hnet).
      destruct (status d =? 200); cbn; rewrite omap_app; cbn.
      * right. exists d. split; reflexivity.
      * left. rewrite app_nil_r. split; reflexivity.
    + rewrite (cacheFirst_down_run network st os tr request e Hst Hnet).
      rewrite offlineFallback_run. cbn.
      left. rewrite omap_app. cbn. rewrite app_nil_r. split; reflexivity.
Qed.

Lemma networkFirst_wrote_current_only w request :
  wrote_current_only request w (networkFirstStrategy network request w).
Proof.
  destruct w as [st os tr]. unfold wrote_current_only, puts. cbn.
  destruct (network request) as [d|e] eqn:Hnet.
  - rewrite (networkFirst_up_run network st os tr request d Hnet).
    destruct (status d =? 200); cbn; rewrite omap_app; cbn.
    + right. exists d. split; reflexivity.
    + left. rewrite app_nil_r. split; reflexivity.
  - destruct (storage_match st (request_key request)) as [s|] eqn:Hst.
    + rewrite (networkFirst_down_hit_run network st os tr request e s Hnet Hst).
      cbn. left. rewrite omap_app. cbn. rewrite app_nil_r. split; reflexivity.
    + rewrite (networkFirst_down_miss_run network st os tr request e Hnet Hst).
      rewrite offlineFallback_run. cbn.
      left. rewrite omap_app. cbn. rewrite app_nil_r. split; reflexivity.
Qed.

Lemma wrote_current_only_others request w result (name : string) :
  wrote_current_only request w result ->
  name <> CACHE_NAME ->
  storage_lookup (storage result.2) name = storage_lookup (storage w) name.
Proof.
  intros [[Hst _] | (d & Hst & _)] Hne; rewrite Hst.
  - reflexivity.
  - apply storage_lookup_written_ne. exact Hne.
Qed.

(** C10.  Whatever the request and the network, a strategy puts into no
    cache but the current one, and every cache under another name is
    after the call what it was before.  Lookups go through all caches:
    when the first cache holding the request's key is a stale generation,
    cache-first answers with that entry without fetching, and so does
    network-first when the network is down.  Once the worker has
    activated, that generation is gone, and whatever still serves an entry
    is the current generation. *)
Theorem strategies_write_current_read_all (w : World) (request : Request) :
  (wrote_current_only request w (cacheFirstStrategy network request w)
   /\ wrote_current_only request w (networkFirstStrategy network request w))
  /\ (forall name, name <> CACHE_NAME ->
        storage_lookup (storage (cacheFirstStrategy network request w).2) name
        = storage_lookup (storage w) name
        /\ storage_lookup
             (storage (networkFirstStrategy network request w).2) name
           = storage_lookup (storage w) name)
  /\ (forall stale d,
        stale <> CACHE_NAME ->
        serves (storage w) stale (request_key request) d ->
        (cacheFirstStrategy network request w =
           (Fulfilled (length (objects w)),
            mkWorld (storage w) (objects w ++ [mkResponseObj d false])
              (trace w ++ [EvCachesMatch (request_key request)])))
        /\ (forall e, network request = NetFailure e ->
              networkFirstStrategy network request w =
                (Fulfilled (length (objects w)),
                 mkWorld (storage w) (objects w ++ [mkResponseObj d false])
                   (trace w ++ [EvFetch request;
                                EvCachesMatch (request_key request)])))
        /\ is_Some (storage_lookup (storage w) stale)
        /\ storage_lookup (storage (onActivate w).2) stale = None)
  /\ (forall name key d,
        serves (storage (onActivate w).2) name key d -> name = CACHE_NAME).
Proof.
  split; [split|split; [|split]].
  - apply cacheFirst_wrote_current_only.
  - apply networkFirst_wrote_current_only.
  - intros name Hne. split.
    + apply (wrote_current_only_others request); [|exact Hne].
      apply cacheFirst_wrote_current_only.
    + apply (wrote_current_only_others request); [|exact Hne].
      apply networkFirst_wrote_current_only.
  - intros stale d Hne Hserves.
    pose proof (serves_storage_match _ _ _ _ Hserves) as Hmatch.
    pose proof (serves_listed _ _ _ _ Hserves) as Hlisted.
    destruct w as [st os tr]. cbn in *.
    split; [apply cacheFirst_hit_run; exact Hmatch|].
    split; [intros e Hnet; apply (networkFirst_down_hit_run network _ _ _ _ e);
            assumption|].
    split; [exact Hlisted|].
    rewrite onActivate_run. cbn. apply storage_lookup_swept. exact Hne.
  - intros name key d Hserves.
    destruct w as [st os tr]. rewrite onActivate_run in Hserves.
    cbn in Hserves. apply serves_listed in Hserves as [c Hc].
    destruct (String.eqb name CACHE_NAME) eqn:Hcur.
    + apply String.eqb_eq. exact Hcur.
    + apply String.eqb_neq in Hcur.
      rewrite (storage_lookup_swept st name Hcur) in Hc. discriminate.
Qed.

End Generations.

Lemma strategies_write_current_read_all_witness :
  let request := journal_get "/a.png" "image" in
  let stale := "space-observation-journal-v0" in
  stale <> CACHE_NAME
  /\ serves (storage world_two_generations) stale (request_key request)
       stored_png
  /\ cacheFirstStrategy network_up request world_two_generations =
       (Fulfilled 0%nat,
        mkWorld (storage world_two_generations)
          [mkResponseObj stored_png false]
          [EvCachesMatch (request_key request)])
  /\ networkFirstStrategy network_down request world_two_generations =
       (Fulfilled 0%nat,
        mkWorld (storage world_two_generations)
          [mkResponseObj stored_png false]
          [EvFetch request; EvCachesMatch (request_key request)])
  /\ storage_lookup (storage (onActivate world_two_generations).2) stale
     = None.
Proof.
  assert (Hne : "space-observation-journal-v0" <> CACHE_NAME) by discriminate.
  assert (Hserves :
            serves (storage world_two_generations)
              "space-observation-journal-v0"
              (request_key (journal_get "/a.png" "image")) stored_png)
    by (apply serves_here; vm_compute; reflexivity).
  cbn zeta. split; [exact Hne|]. split; [exact Hserves|].
  pose proof
    (proj1 (proj2 (proj2
       (strategies_write_current_read_all network_up world_two_generations
          (journal_get "/a.png" "image"))))
       "space-observation-journal-v0" stored_png Hne Hserves) as Hup.
  pose proof
    (proj1 (proj2 (proj2
       (strategies_write_current_read_all network_down world_two_generations
          (journal_get "/a.png" "image"))))
       "space-observation-journal-v0" stored_png Hne Hserves) as Hdown.
  split; [exact (proj1 Hup)|].
  split; [exact (proj1 (proj2 Hdown) _ eq_refl)|].
  exact (proj2 (proj2 (proj2 Hup))).
Defined.

(** ** The names of the generations stay distinct

    The hypothesis under which the listing after activation is computed
    holds of the empty storage and is kept by every entry point of the
    worker. *)

Lemma strategies_keep_names_distinct
    (network : Request -> NetResult) (w : World) (request : Request) :
  NoDup (map fst (storage w)) ->
  NoDup (map fst (storage (cacheFirstStrategy network request w).2))
  /\ NoDup (map fst (storage (networkFirstStrategy network request w).2)).
Proof.
  intros Hnd.
  split;
    [destruct (cacheFirst_wrote_current_only network w request)
       as [[Hst _] | (d & Hst & _)]
    |destruct (networkFirst_wrote_current_only network w request)
       as [[Hst _] | (d & Hst & _)]];
    rewrite Hst; try exact Hnd;
    rewrite storage_update_names; apply storage_open_NoDup; exact Hnd.
Qed.

Lemma onInstall_keeps_names_distinct
    (network : Request -> NetResult) (absolute : string -> URL) (w : World) :
  NoDup (map fst (storage w)) ->
  NoDup (map fst (storage (onInstall network absolute w).2)).
Proof.
  intros Hnd. destruct w as [st os tr]. cbn in Hnd.
  destruct (mapM (addAll_entry network) (precache_requests absolute))
    as [entries|] eqn:Hall.
  - rewrite (onInstall_success_run network absolute st os tr entries Hall).
    cbn. rewrite storage_update_names. apply storage_open_NoDup. exact Hnd.
  - rewrite (onInstall_failure_run network absolute st os tr Hall).
    cbn. apply storage_open_NoDup. exact Hnd.
Qed.

Lemma onActivate_keeps_names_distinct (w : World) :
  NoDup (map fst (storage w)) ->
  NoDup (map fst (storage (onActivate w).2)).
Proof.
  intros Hnd. destruct w as [st os tr]. cbn in Hnd.
  rewrite onActivate_run. cbn. rewrite names_of_current by exact Hnd.
  destruct (bool_decide (CACHE_NAME ∈ map fst st));
    [apply NoDup_singleton | apply NoDup_nil_2].
Qed.

(** ** Scenarios *)

(** Two installs on a working network, then activation: one generation,
    holding exactly the manifest URLs. *)
Example install_twice_then_activate :
  let w1 := (onInstall network_up journal_url empty_world).2 in
  let w2 := (onInstall network_up journal_url w1).2 in
  let w3 := (onActivate w2).2 in
  map fst (storage w3) = [CACHE_NAME]
  /\ (size <$> storage_lookup (storage w3) CACHE_NAME) = Some 5%nat
  /\ forallb
       (fun r =>
          bool_decide
            (is_Some (cache_entry (storage w3) CACHE_NAME (request_key r))))
       (precache_requests journal_url)
     = true.
Proof. vm_compute. repeat split; reflexivity. Qed.

(** Network-first on a font whose older copy is in the current cache: the
    fresh response is returned, and the cache now holds it. *)
Example networkFirst_refreshes_font :
  let stale := mkResponseData 200 "OK" [] "old css" in
  let w :=
    mkWorld [(CACHE_NAME, {[ request_key font_request := stale ]})] [] [] in
  let result := networkFirstStrategy network_up font_request w in
  result.1 = Fulfilled 0%nat
  /\ (contents <$> objects result.2 !! 0%nat)
     = Some (mkResponseData 200 "OK" [("content-type", "image/png")] "fresh")
  /\ storage_match (storage result.2) (request_key font_request)
     = Some (mkResponseData 200 "OK" [("content-type", "image/png")] "fresh").
Proof. vm_compute. repeat split; reflexivity. Qed.

(** With no network and an empty store, a navigation gets the offline
    page with status 200. *)
Example cacheFirst_offline_navigation :
  let request := journal_get "/" "document" in
  let result := cacheFirstStrategy network_down request empty_world in
  result.1 = Fulfilled 0%nat
  /\ (contents <$> objects result.2 !! 0%nat) = Some fallback_page
  /\ status fallback_page = 200
  /\ includes (body fallback_page) "<h1>You're Offline</h1>" = true.
Proof. vm_compute. repeat split; reflexivity. Qed.

(** A request that accepts HTML gets the page whatever its destination. *)
Example offlineFallback_accept_html :
  let request :=
    mkRequest "GET" (journal_url "/entries") ""
      [("accept", "text/html,application/xhtml+xml")] in
  wants_html request = true
  /\ (offlineFallback request empty_world).1 = Fulfilled 0%nat
  /\ (contents <$> objects (offlineFallback request empty_world).2 !! 0%nat)
     = Some fallback_page.
Proof. vm_compute. repeat split; reflexivity. Qed.

(** ** Beyond the claims: the strategies *)

Section StrategyCoverage.

Variable network : Request -> NetResult.

Implicit Types st : list (string * gmap (string * string) ResponseData).

(** Writing one key of one cache leaves its other keys as they were. *)
Lemma cache_entry_written_other_key st (name : string)
    (k key : string * string) d :
  key <> k ->
  cache_entry
    (storage_update (storage_open st name) name (fun c => <[k := d]> c))
    name key
  = cache_entry st name key.
Proof.
  intros Hne. unfold cache_entry.
  induction st as [|[n c] rest IH].
  - unfold storage_open. simpl. rewrite String.eqb_refl. simpl.
    rewrite String.eqb_refl. rewrite lookup_insert_ne by congruence.
    apply lookup_empty.
  - destruct (String.eqb n name) eqn:Hn.
    + apply String.eqb_eq in Hn. subst n. rewrite storage_open_cons_eq.
      simpl. rewrite String.eqb_refl. simpl. rewrite String.eqb_refl.
      apply lookup_insert_ne. congruence.
    + rewrite storage_open_cons_ne by (apply String.eqb_neq; exact Hn).
      simpl. rewrite Hn. simpl. rewrite Hn. exact IH.
Qed.

(** A lookup after a write to the cache [name]: the generations created
    before [name] are asked first. *)
Lemma storage_match_after_write st (name : string) (k : string * string) d :
  storage_match
    (storage_update (storage_open st name) name (fun c => <[k := d]> c)) k
  = match storage_match (generations_before name st) k with
    | Some old => Some old
    | None => Some d
    end.
Proof.
  induction st as [|[n c] rest IH].
  - unfold storage_open. simpl. rewrite String.eqb_refl. simpl.
    rewrite lookup_insert_eq. reflexivity.
  - destruct (String.eqb n name) eqn:Hn.
    + simpl. rewrite Hn.
      apply String.eqb_eq in Hn. subst n. rewrite storage_open_cons_eq.
      simpl. rewrite String.eqb_refl. simpl.
      rewrite lookup_insert_eq. reflexivity.
    + rewrite storage_open_cons_ne by (apply String.eqb_neq; exact Hn).
      simpl. rewrite Hn. simpl.
      destruct (c !! k); [reflexivity | exact IH].
Qed.

Lemma cacheFirst_stored_at_most_answer w request :
  stored_at_most_answer network request w
    (cacheFirstStrategy network request w).
Proof.
  destruct w as [st os tr]. unfold stored_at_most_answer. cbn.
  destruct (storage_match st (request_key request)) as [s|] eqn:Hst.
  - rewrite (cacheFirst_hit_run network st os tr request s Hst). left.
    reflexivity.
  - destruct (network request) as [d|e] eqn:Hnet.
    + rewrite (cacheFirst_miss_run network st os tr request d Hst Hnet).
      destruct (status d =? 200) eqn:Hok; cbn.
      * right. exists d. apply Z.eqb_eq in Hok. repeat split; auto.
      * left. reflexivity.
    + rewrite (cacheFirst_down_run network st os tr request e Hst Hnet).
      rewrite offlineFallback_run. left. reflexivity.
Qed.

Lemma networkFirst_stored_at_most_answer w request :
  stored_at_most_answer network request w
    (networkFirstStrategy network request w).
Proof.
  destruct w as [st os tr]. unfold stored_at_most_answer. cbn.
  destruct (network request) as [d|e] eqn:Hnet.
  - rewrite (networkFirst_up_run network st os tr request d Hnet).
    destruct (status d =? 200) eqn:Hok; cbn.
    + right. exists d. apply Z.eqb_eq in Hok. repeat split; auto.
    + left. reflexivity.
  - destruct (storage_match st (request_key request)) as [s|] eqn:Hst.
    + rewrite (networkFirst_down_hit_run network st os tr request e s Hnet Hst).
      left. reflexivity.
    + rewrite (networkFirst_down_miss_run network st os tr request e Hnet Hst).
      rewrite offlineFallback_run. left. reflexivity.
Qed.

Lemma stored_at_most_answer_entry request w result
    (name : string) (key : string * string) :
  stored_at_most_answer network request w result ->
  entry_kept_or_refreshed network request w name key result.
Proof.
  intros [Hst | (d & Hnet & Hok & Hst)]; unfold entry_kept_or_refreshed;
    rewrite Hst.
  - left. reflexivity.
  - destruct (String.eqb name CACHE_NAME) eqn:Hn.
    + apply String.eqb_eq in Hn. subst name.
      destruct (decide (key = request_key request)) as [->|Hk].
      * right. split; [reflexivity|]. split; [reflexivity|].
        exists d. rewrite cache_entry_written. auto.
      * left. apply cache_entry_written_other_key. exact Hk.
    + left. unfold cache_entry.
      rewrite storage_lookup_written_ne by (apply String.eqb_neq; exact Hn).
      reflexivity.
Qed.

(** X1.  Whatever the request, the network and the state of the store, a
    strategy changes at most one entry of the whole storage: the one of
    the request's own key in the current cache, and then the new value is a
    response the network gave for this request with status 200.  No other
    key and no other cache is touched, and nothing but a 200 answer is ever
    written. *)
Theorem strategies_change_at_most_own_entry
    (w : World) (request : Request) (name : string) (key : string * string) :
  entry_kept_or_refreshed network request w name key
    (cacheFirstStrategy network request w)
  /\ entry_kept_or_refreshed network request w name key
       (networkFirstStrategy network request w).
Proof.
  split; apply stored_at_most_answer_entry.
  - apply cacheFirst_stored_at_most_answer.
  - apply networkFirst_stored_at_most_answer.
Qed.

Lemma strategies_fresh_unread (w : World) (request : Request) :
  fresh_unread w (cacheFirstStrategy network request w)
  /\ fresh_unread w (networkFirstStrategy network request w).
Proof.
  destruct w as [st os tr]. unfold fresh_unread. cbn.
  destruct (network request) as [d|e] eqn:Hnet;
    destruct (storage_match st (request_key request)) as [s|] eqn:Hst.
  - rewrite (cacheFirst_hit_run network st os tr request s Hst).
    rewrite (networkFirst_up_run network st os tr request d Hnet).
    split; [exists (mkResponseObj s false), [] |].
    + repeat split; reflexivity.
    + destruct (status d =? 200);
        [exists (mkResponseObj d false), [mkResponseObj d true]
        |exists (mkResponseObj d false), []];
        repeat split; reflexivity.
  - rewrite (cacheFirst_miss_run network st os tr request d Hst Hnet).
    rewrite (networkFirst_up_run network st os tr request d Hnet).
    split; destruct (status d =? 200);
      try (exists (mkResponseObj d false), [mkResponseObj d true];
           repeat split; reflexivity);
      exists (mkResponseObj d false), []; repeat split; reflexivity.
  - rewrite (cacheFirst_hit_run network st os tr request s Hst).
    rewrite (networkFirst_down_hit_run network st os tr request e s Hnet Hst).
    split; exists (mkResponseObj s false), []; repeat split; reflexivity.
  - rewrite (cacheFirst_down_run network st os tr request e Hst Hnet).
    rewrite (networkFirst_down_miss_run network st os tr request e Hnet Hst).
    rewrite !offlineFallback_run.
    split; eexists _, []; repeat split; reflexivity.
Qed.

Lemma answered_fresh_unread (m : Async Ref) (w : World) :
  fresh_unread w (m w) ->
  exists o added,
    ((r ← m; mret (Some r)) w).1 = Fulfilled (Some (length (objects w)))
    /\ objects ((r ← m; mret (Some r)) w).2 = (objects w ++ o :: added)%list
    /\ bodyUsed o = false.
Proof.
  intros (o & added & Hout & Hobjs & Hunread). exists o, added.
  unfold mbind, Async_bind, and_then.
  destruct (m w) as [[r|e] w']; cbn in *; [|discriminate].
  injection Hout as ->. auto.
Qed.

(** X2.  Nothing the page asks for ends in a rejection, whatever the
    network answers.  Each strategy fulfils with a response object
    allocated during the call whose body is still unread, and leaves the
    Response objects that existed before untouched; the fetch listener
    either declines the request, without touching anything, or answers it
    with such a response. *)
Theorem strategies_fulfil_with_unread_response
    (w : World) (request : Request) :
  fresh_unread w (cacheFirstStrategy network request w)
  /\ fresh_unread w (networkFirstStrategy network request w)
  /\ (onFetch network request w = (Fulfilled None, w)
      \/ exists o added,
           (onFetch network request w).1
           = Fulfilled (Some (length (objects w)))
           /\ objects (onFetch network request w).2
              = (objects w ++ o :: added)%list
           /\ bodyUsed o = false).
Proof.
  destruct (strategies_fresh_unread w request) as [Hcache Hnet].
  split; [exact Hcache|]. split; [exact Hnet|].
  unfold onFetch.
  destruct (negb (String.eqb (method request) "GET")); [left; reflexivity|].
  destruct (negb (startsWith (protocol (url request)) "http"));
    [left; reflexivity|].
  right.
  destruct (String.eqb (hostname (url request)) "fonts.googleapis.com"
            || String.eqb (hostname (url request)) "fonts.gstatic.com");
    apply answered_fresh_unread; assumption.
Qed.

(** X3.  How often the network is asked: cache-first sends the request to
    the network exactly when the store has no entry for its key, and then
    once; network-first sends it exactly once on every call, also when the
    store has the entry.  What is sent is the intercepted request itself. *)
Theorem strategies_fetch_counts (w : World) (request : Request) :
  fetches (trace (cacheFirstStrategy network request w).2)
  = (fetches (trace w)
     ++ match storage_match (storage w) (request_key request) with
        | Some _ => []
        | None => [request]
        end)%list
  /\ fetches (trace (networkFirstStrategy network request w).2)
     = (fetches (trace w) ++ [request])%list.
Proof.
  destruct w as [st os tr]. unfold fetches. cbn.
  destruct (network request) as [d|e] eqn:Hnet;
    destruct (storage_match st (request_key request)) as [s|] eqn:Hst.
  - rewrite (cacheFirst_hit_run network st os tr request s Hst).
    rewrite (networkFirst_up_run network st os tr request d Hnet).
    destruct (status d =? 200); cbn; rewrite !omap_app; split; reflexivity.
  - rewrite (cacheFirst_miss_run network st os tr request d Hst Hnet).
    rewrite (networkFirst_up_run network st os tr request d Hnet).
    destruct (status d =? 200); cbn; rewrite !omap_app; split; reflexivity.
  - rewrite (cacheFirst_hit_run network st os tr request s Hst).
    rewrite (networkFirst_down_hit_run network st os tr request e s Hnet Hst).
    cbn. rewrite !omap_app. split; reflexivity.
  - rewrite (cacheFirst_down_run network st os tr request e Hst Hnet).
    rewrite (networkFirst_down_miss_run network st os tr request e Hnet Hst).
    rewrite !offlineFallback_run. cbn. rewrite !omap_app. split; reflexivity.
Qed.

End StrategyCoverage.

(** X4.  What cache-first stores it serves: after a miss answered by the
    network with status 200, the next call for the same request is
    answered from the store with the same contents, whatever has become of
    the network; its only call into the host is the lookup. *)
Theorem cacheFirst_serves_what_it_stored
    (network network' : Request -> NetResult) (w : World) (request : Request)
    (d : ResponseData) :
  storage_match (storage w) (request_key request) = None ->
  network request = NetResponse d ->
  status d = 200 ->
  let w1 := (cacheFirstStrategy network request w).2 in
  cacheFirstStrategy network' request w1 =
    (Fulfilled (length (objects w1)),
     mkWorld (storage w1) (objects w1 ++ [mkResponseObj d false])
       (trace w1 ++ [EvCachesMatch (request_key request)])).
Proof.
  intros Hmiss Hnet Hok. destruct w as [st os tr]. cbn in Hmiss.
  rewrite (cacheFirst_miss_run network st os tr request d Hmiss Hnet).
  apply Z.eqb_eq in Hok. rewrite Hok. cbn.
  apply cacheFirst_hit_run. apply storage_match_written. exact Hmiss.
Qed.

Lemma cacheFirst_serves_what_it_stored_witness :
  let request := journal_get "/b.png" "image" in
  let d := mkResponseData 200 "OK" [("content-type", "image/png")] "fresh" in
  let w1 := (cacheFirstStrategy network_up request empty_world).2 in
  storage_match (storage empty_world) (request_key request) = None
  /\ network_up request = NetResponse d
  /\ status d = 200
  /\ cacheFirstStrategy network_down request w1 =
       (Fulfilled (length (objects w1)),
        mkWorld (storage w1) (objects w1 ++ [mkResponseObj d false])
          (trace w1 ++ [EvCachesMatch (request_key request)])).
Proof.
  cbn zeta. split; [reflexivity|]. split; [reflexivity|].
  split; [reflexivity|].
  apply (cacheFirst_serves_what_it_stored network_up network_down empty_world
           (journal_get "/b.png" "image")
           (mkResponseData 200 "OK" [("content-type", "image/png")] "fresh"));
    reflexivity.
Defined.

(** X5.  Where a refreshed entry is seen: after network-first has stored a
    status-200 answer, a lookup of the request's key still returns the
    entry of a generation created before the current one when such a
    generation holds the key; the fresh answer is returned only when none
    does. *)
Theorem networkFirst_refresh_hidden_by_older_generation
    (network : Request -> NetResult) (w : World) (request : Request)
    (d : ResponseData) :
  network request = NetResponse d ->
  status d = 200 ->
  storage_match (storage (networkFirstStrategy network request w).2)
    (request_key request)
  = match storage_match (generations_before CACHE_NAME (storage w))
            (request_key request) with
    | Some old => Some old
    | None => Some d
    end.
Proof.
  intros Hnet Hok. destruct w as [st os tr].
  rewrite (networkFirst_up_run network st os tr request d Hnet).
  apply Z.eqb_eq in Hok. rewrite Hok. cbn.
  apply storage_match_after_write.
Qed.

Lemma networkFirst_refresh_hidden_by_older_generation_witness :
  let request := journal_get "/a.png" "image" in
  network_up request
  = NetResponse
      (mkResponseData 200 "OK" [("content-type", "image/png")] "fresh")
  /\ storage_match
       (storage (networkFirstStrategy network_up request
                   world_two_generations).2)
       (request_key request)
     = Some stored_png.
Proof.
  cbn zeta. split; [reflexivity|].
  exact (networkFirst_refresh_hidden_by_older_generation network_up
           world_two_generations (journal_get "/a.png" "image")
           (mkResponseData 200 "OK" [("content-type", "image/png")] "fresh")
           eq_refl eq_refl).
Defined.

(** ** Beyond the claims: the fallback *)

Lemma prefix_iff (p s : string) :
  String.prefix p s = true <-> exists post, s = p +:+ post.
Proof.
  revert s. induction p as [|a p IH]; intros s.
  - destruct s; simpl; (split; [intros _; eexists; reflexivity | reflexivity]).
  - destruct s as [|b s]; simpl.
    + split; [discriminate | intros [post H]; discriminate].
    + destruct (ascii_dec a b) as [->|Hne].
      * rewrite IH. split; intros [post H]; exists post.
        -- rewrite H. reflexivity.
        -- change (String b s = String b (p +:+ post)) in H. congruence.
      * split; [discriminate|]. intros [post H].
        change (String b s = String a (p +:+ post)) in H. congruence.
Qed.

Lemma includes_iff (s needle : string) :
  includes s needle = true <-> exists pre post, s = pre +:+ needle +:+ post.
Proof.
  induction s as [|a s IH].
  - change (includes "" needle) with (String.prefix needle "" || false).
    rewrite orb_false_r, prefix_iff. split.
    + intros [post H]. exists "", post. exact H.
    + intros (pre & post & H). destruct pre; [|discriminate].
      exists post. exact H.
  - change (includes (String a s) needle)
      with (String.prefix needle (String a s) || includes s needle).
    rewrite orb_true_iff, prefix_iff, IH. split.
    + intros [[post H] | (pre & post & H)].
      * exists "", post. exact H.
      * exists (String a pre), post. rewrite H. reflexivity.
    + intros (pre & post & H). destruct pre as [|a' pre].
      * left. exists post. exact H.
      * right. exists pre, post.
        change (String a s = String a' (pre +:+ needle +:+ post)) in H.
        congruence.
Qed.

Lemma wants_html_wanted (request : Request) :
  wants_html request = true <-> html_wanted request.
Proof.
  unfold wants_html, html_wanted. rewrite orb_true_iff, String.eqb_eq.
  destruct (headers_get (req_headers request) "accept") as [a|].
  - rewrite includes_iff. split; (intros [H|H]; [left; exact H | right]).
    + destruct H as (pre & post & H). exists a, pre, post. auto.
    + destruct H as (a' & pre & post & [= <-] & H). exists pre, post. exact H.
  - split; (intros [H|H]; [left; exact H | exfalso]).
    + discriminate.
    + destruct H as (a' & pre & post & H & _). discriminate.
Qed.

(** X6.  The fallback is the offline page with status 200 exactly for the
    requests whose destination is "document" or whose accept header
    contains the text "text/html" anywhere in its value; every other
    request, one without an accept header included, gets the 503 response.
    In both cases the call fulfils and only allocates that response. *)
Theorem offlineFallback_page_iff_html_wanted (request : Request) (w : World) :
  (html_wanted request ->
     offlineFallback request w
     = (Fulfilled (length (objects w)),
        set_objects w (objects w ++ [mkResponseObj fallback_page false])))
  /\ (~ html_wanted request ->
      offlineFallback request w
      = (Fulfilled (length (objects w)),
         set_objects w
           (objects w ++ [mkResponseObj fallback_unavailable false]))).
Proof.
  destruct w as [st os tr]. rewrite offlineFallback_run.
  split; intros H.
  - apply wants_html_wanted in H. rewrite H. reflexivity.
  - destruct (wants_html request) eqn:Hw; [|reflexivity].
    apply wants_html_wanted in Hw. contradiction.
Qed.

Lemma offlineFallback_page_iff_html_wanted_witness :
  let browser :=
    mkRequest "GET" (journal_url "/entries") ""
      [("accept", "application/xhtml+xml,text/html;q=0.9")] in
  let script := mkRequest "GET" (journal_url "/app.js") "script" [] in
  offlineFallback browser empty_world
  = (Fulfilled 0%nat, mkWorld [] [mkResponseObj fallback_page false] [])
  /\ offlineFallback script empty_world
     = (Fulfilled 0%nat,
        mkWorld [] [mkResponseObj fallback_unavailable false] []).
Proof.
  cbn zeta. split.
  - apply (proj1 (offlineFallback_page_iff_html_wanted
                    (mkRequest "GET" (journal_url "/entries") ""
                       [("accept", "application/xhtml+xml,text/html;q=0.9")])
                    empty_world)).
    right. exists "application/xhtml+xml,text/html;q=0.9",
             "application/xhtml+xml,", ";q=0.9".
    split; reflexivity.
  - apply (proj2 (offlineFallback_page_iff_html_wanted
                    (mkRequest "GET" (journal_url "/app.js") "script" [])
                    empty_world)).
    intros [H | (a & pre & post & H & _)]; discriminate.
Defined.

(** ** Beyond the claims: install *)

Section InstallCoverage.

Variable network : Request -> NetResult.
Variable absolute : string -> URL.

Implicit Types st : list (string * gmap (string * string) ResponseData).
Implicit Types c : gmap (string * string) ResponseData.
Implicit Types es : list ((string * string) * ResponseData).

Lemma addAll_entry_Some request e :
  addAll_entry network request = Some e <->
  exists d,
    network request = NetResponse d /\ response_ok d = true
    /\ e = (request_key request, d).
Proof.
  unfold addAll_entry. destruct (network request) as [d|err].
  - destruct (response_ok d) eqn:Hok.
    + split.
      * intros [= <-]. exists d. auto.
      * intros (d' & [= <-] & _ & ->). reflexivity.
    + split; [discriminate|].
      intros (d' & [= <-] & Hok' & _). congruence.
  - split; [discriminate | intros (d' & Hd & _); discriminate].
Qed.

Lemma mapM_addAll_entry_precached (requests : list Request) :
  is_Some (mapM (addAll_entry network) requests)
  <-> Forall (precached network) requests.
Proof.
  rewrite mapM_is_Some. apply Forall_proper; [|reflexivity].
  intros request. unfold compose, precached. split.
  - intros [e He]. apply addAll_entry_Some in He as (d & Hd & Hok & _).
    exists d. auto.
  - intros (d & Hd & Hok). exists (request_key request, d).
    apply addAll_entry_Some. exists d. auto.
Qed.

(** What [addAll] leaves in a cache, key by key: the last response recorded
    for the key, or what the cache held before. *)
Lemma foldl_insert_lookup es c (k : string * string) :
  foldl (fun c e => <[e.1 := e.2]> c) c es !! k
  = match foldl (fun c e => <[e.1 := e.2]> c) ∅ es !! k with
    | Some v => Some v
    | None => c !! k
    end.
Proof.
  revert c. induction es as [|e es IH]; intros c; cbn [foldl].
  - rewrite lookup_empty. reflexivity.
  - rewrite (IH (<[e.1 := e.2]> c)), (IH (<[e.1 := e.2]> ∅)).
    destruct (foldl (fun c e => <[e.1 := e.2]> c) ∅ es !! k); [reflexivity|].
    destruct (decide (e.1 = k)) as [->|Hne].
    + rewrite !lookup_insert_eq. reflexivity.
    + rewrite !lookup_insert_ne by exact Hne. rewrite lookup_empty.
      reflexivity.
Qed.

Lemma foldl_insert_idempotent es c :
  foldl (fun c e => <[e.1 := e.2]> c)
    (foldl (fun c e => <[e.1 := e.2]> c) c es) es
  = foldl (fun c e => <[e.1 := e.2]> c) c es.
Proof.
  apply map_eq. intros k.
  rewrite (foldl_insert_lookup es (foldl _ c es)).
  rewrite (foldl_insert_lookup es c).
  destruct (foldl (fun c e => <[e.1 := e.2]> c) ∅ es !! k); reflexivity.
Qed.

(** The recorded responses are the network's ok answers to the manifest
    requests, and each manifest request has one. *)
Lemma recorded_entries (requests : list Request) es :
  Forall2 (fun r e => addAll_entry network r = Some e) requests es ->
  (forall request, request ∈ requests ->
     is_Some (foldl (fun c e => <[e.1 := e.2]> c) ∅ es
              !! request_key request))
  /\ (forall k v,
        foldl (fun c e => <[e.1 := e.2]> c) ∅ es !! k = Some v ->
        exists request,
          request ∈ requests /\ request_key request = k
          /\ network request = NetResponse v /\ response_ok v = true).
Proof.
  induction 1 as [|r e requests es He _ [IHin IHout]].
  - split.
    + intros request Hin. apply elem_of_nil in Hin. contradiction.
    + intros k v Hk. cbn in Hk. rewrite lookup_empty in Hk. discriminate.
  - apply addAll_entry_Some in He as (d & Hd & Hok & ->).
    split.
    + intros request Hin. cbn [foldl]. rewrite foldl_insert_lookup.
      apply elem_of_cons in Hin as [->|Hin].
      * destruct (foldl _ ∅ es !! request_key r); [eexists; reflexivity|].
        cbn. rewrite lookup_insert_eq. eexists. reflexivity.
      * destruct (IHin request Hin) as [v Hv]. rewrite Hv.
        eexists. reflexivity.
    + intros k v. cbn [foldl]. rewrite foldl_insert_lookup.
      destruct (foldl _ ∅ es !! k) as [v'|] eqn:Hes.
      * intros [= <-]. destruct (IHout k v' Hes) as (request & Hin & H).
        exists request. split; [apply elem_of_cons; right; exact Hin | exact H].
      * cbn. destruct (decide (request_key r = k)) as [<-|Hne].
        -- rewrite lookup_insert_eq. intros [= <-]. exists r.
           split; [apply elem_of_cons; left; reflexivity | auto].
        -- rewrite lookup_insert_ne by exact Hne. rewrite lookup_empty.
           discriminate.
Qed.

Lemma storage_lookup_open_update st (name : string)
    (f : gmap (string * string) ResponseData ->
         gmap (string * string) ResponseData) :
  storage_lookup (storage_update (storage_open st name) name f) name
  = Some (f (default ∅ (storage_lookup st name))).
Proof.
  induction st as [|[n c] rest IH].
  - unfold storage_open. simpl. rewrite String.eqb_refl. simpl.
    rewrite String.eqb_refl. reflexivity.
  - destruct (String.eqb n name) eqn:Hn.
    + apply String.eqb_eq in Hn. subst n. rewrite storage_open_cons_eq.
      simpl. rewrite String.eqb_refl. simpl. rewrite String.eqb_refl.
      reflexivity.
    + rewrite storage_open_cons_ne by (apply String.eqb_neq; exact Hn).
      simpl. rewrite Hn. simpl. rewrite Hn. exact IH.
Qed.

Lemma storage_lookup_open st (name other : string) :
  storage_lookup (storage_open st name) other
  = if String.eqb name other
    then Some (default ∅ (storage_lookup st name))
    else storage_lookup st other.
Proof.
  induction st as [|[n c] rest IH].
  - unfold storage_open. simpl. destruct (String.eqb name other); reflexivity.
  - destruct (String.eqb n name) eqn:Hn.
    + apply String.eqb_eq in Hn. subst n. rewrite storage_open_cons_eq.
      simpl. rewrite String.eqb_refl.
      destruct (String.eqb name other); reflexivity.
    + rewrite storage_open_cons_ne by (apply String.eqb_neq; exact Hn).
      simpl. rewrite Hn. destruct (String.eqb n other) eqn:Hno.
      * apply String.eqb_eq in Hno. subst other.
        apply String.eqb_neq in Hn. apply not_eq_sym in Hn.
        apply String.eqb_neq in Hn. rewrite Hn. reflexivity.
      * exact IH.
Qed.

Lemma storage_open_present st (name : string) :
  is_Some (storage_lookup st name) -> storage_open st name = st.
Proof. intros [c Hc]. unfold storage_open. rewrite Hc. reflexivity. Qed.

Lemma storage_update_update st (name : string)
    (f g : gmap (string * string) ResponseData ->
           gmap (string * string) ResponseData) :
  storage_update (storage_update st name f) name g
  = storage_update st name (fun c => g (f c)).
Proof.
  induction st as [|[n c] rest IH]; [reflexivity|].
  simpl. destruct (String.eqb n name) eqn:Hn; simpl; rewrite Hn.
  - reflexivity.
  - f_equal. exact IH.
Qed.

Lemma storage_update_ext st (name : string)
    (f g : gmap (string * string) ResponseData ->
           gmap (string * string) ResponseData) :
  (forall c, f c = g c) ->
  storage_update st name f = storage_update st name g.
Proof.
  intros Hfg. induction st as [|[n c] rest IH]; [reflexivity|].
  simpl. destruct (String.eqb n name); [rewrite Hfg | rewrite IH]; reflexivity.
Qed.

Lemma fetches_requests (requests : list Request) :
  fetches (map EvFetch requests) = requests.
Proof.
  unfold fetches. induction requests as [|r rs IH]; [reflexivity|].
  cbn. f_equal. exact IH.
Qed.

Lemma fetches_app (tr1 tr2 : list Event) :
  fetches (tr1 ++ tr2) = (fetches tr1 ++ fetches tr2)%list.
Proof. apply omap_app. Qed.

Lemma warnings_requests (requests : list Request) :
  omap (fun e => match e with EvConsoleWarn _ err => Some err | _ => None end)
    (map EvFetch requests) = [].
Proof. induction requests as [|r rs IH]; [reflexivity | exact IH]. Qed.

Lemma skip_calls_requests (requests : list Request) :
  omap (fun e => match e with EvSkipWaiting => Some tt | _ => None end)
    (map EvFetch requests) = [].
Proof. induction requests as [|r rs IH]; [reflexivity | exact IH]. Qed.

(** X7.  Install never rejects, whatever the network does: the promise
    handed to [waitUntil] always fulfils.  Afterwards the current
    generation exists and every other generation is as it was; each
    manifest URL has been requested once, in manifest order.  The worker
    asks to skip waiting, once, exactly when every manifest URL was
    answered in the ok range; otherwise it does not ask, writes nothing
    into any cache, and leaves one warning on the console. *)
Theorem onInstall_always_fulfils (w : World) :
  let result := onInstall network absolute w in
  result.1 = Fulfilled tt
  /\ objects result.2 = objects w
  /\ is_Some (storage_lookup (storage result.2) CACHE_NAME)
  /\ (forall name, name <> CACHE_NAME ->
        storage_lookup (storage result.2) name
        = storage_lookup (storage w) name)
  /\ fetches (trace result.2)
     = (fetches (trace w) ++ precache_requests absolute)%list
  /\ ((Forall (precached network) (precache_requests absolute)
       /\ skip_calls (trace result.2) = S (skip_calls (trace w))
       /\ warnings (trace result.2) = warnings (trace w))
      \/ (~ Forall (precached network) (precache_requests absolute)
          /\ skip_calls (trace result.2) = skip_calls (trace w)
          /\ warnings (trace result.2)
             = (warnings (trace w) ++ [TypeError "Request failed"])%list
          /\ storage result.2 = storage_open (storage w) CACHE_NAME)).
Proof.
  destruct w as [st os tr]. cbv zeta.
  destruct (mapM (addAll_entry network) (precache_requests absolute))
    as [entries|] eqn:Hall.
  - rewrite (onInstall_success_run network absolute st os tr entries Hall).
    assert (Hok : Forall (precached network) (precache_requests absolute))
      by (apply mapM_addAll_entry_precached; rewrite Hall; eexists;
          reflexivity).
    clear Hall. revert Hok. generalize (precache_requests absolute).
    intros requests Hok. cbn [fst snd storage objects trace].
    split; [reflexivity|]. split; [reflexivity|].
    split; [rewrite storage_lookup_open_update; eexists; reflexivity|].
    split; [intros name Hne; apply storage_lookup_written_ne; exact Hne|].
    unfold skip_calls, warnings. rewrite !fetches_app, !omap_app.
    rewrite fetches_requests, skip_calls_requests, warnings_requests. cbn.
    rewrite !app_nil_r. split; [reflexivity|].
    left. split; [exact Hok|]. rewrite length_app. cbn.
    split; [lia | reflexivity].
  - rewrite (onInstall_failure_run network absolute st os tr Hall).
    assert (Hko : ~ Forall (precached network) (precache_requests absolute)).
    { intros Hok. apply mapM_addAll_entry_precached in Hok as [es Hes].
      congruence. }
    clear Hall. revert Hko. generalize (precache_requests absolute).
    intros requests Hko. cbn [fst snd storage objects trace].
    split; [reflexivity|]. split; [reflexivity|].
    split; [rewrite storage_lookup_open, String.eqb_refl; eexists; reflexivity|].
    split.
    { intros name Hne. rewrite storage_lookup_open.
      apply not_eq_sym in Hne. apply String.eqb_neq in Hne. rewrite Hne.
      reflexivity. }
    unfold skip_calls, warnings. rewrite !fetches_app, !omap_app.
    rewrite fetches_requests, skip_calls_requests, warnings_requests. cbn.
    rewrite !app_nil_r. split; [reflexivity|].
    right. split; [exact Hko|]. repeat split; reflexivity.
Qed.

End InstallCoverage.

Lemma cache_entry_storage_match
    (st : list (string * gmap (string * string) ResponseData))
    (name : string) (key : string * string) (d : ResponseData) :
  cache_entry st name key = Some d -> is_Some (storage_match st key).
Proof.
  unfold cache_entry. induction st as [|[n c] rest IH]; simpl; [discriminate|].
  destruct (c !! key) as [d'|] eqn:Hc; [intros _; eexists; reflexivity|].
  destruct (String.eqb n name); [congruence | exact IH].
Qed.

(** The storage install leaves when the precaching succeeds. *)
Lemma onInstall_success_storage
    (network : Request -> NetResult) (absolute : string -> URL) (w : World) :
  Forall (precached network) (precache_requests absolute) ->
  exists entries,
    Forall2 (fun r e => addAll_entry network r = Some e)
      (precache_requests absolute) entries
    /\ storage (onInstall network absolute w).2
       = storage_update (storage_open (storage w) CACHE_NAME) CACHE_NAME
           (fun c => foldl (fun c e => <[e.1 := e.2]> c) c entries).
Proof.
  intros Hok. destruct w as [st os tr].
  apply mapM_addAll_entry_precached in Hok as [entries Hall].
  rewrite (onInstall_success_run network absolute st os tr entries Hall).
  exists entries. split; [apply mapM_Some; exact Hall | reflexivity].
Qed.

(** Install leaves a current generation behind, in every case. *)
Lemma onInstall_opens_current
    (network : Request -> NetResult) (absolute : string -> URL) (w : World) :
  is_Some (storage_lookup (storage (onInstall network absolute w).2)
             CACHE_NAME).
Proof.
  destruct w as [st os tr].
  destruct (mapM (addAll_entry network) (precache_requests absolute))
    as [entries|] eqn:Hall.
  - rewrite (onInstall_success_run network absolute st os tr entries Hall).
    cbn [snd storage]. rewrite storage_lookup_open_update.
    eexists. reflexivity.
  - rewrite (onInstall_failure_run network absolute st os tr Hall).
    cbn [snd storage]. rewrite storage_lookup_open, String.eqb_refl.
    eexists. reflexivity.
Qed.

(** X8.  When every manifest URL is answered in the ok range, install
    leaves in the current cache, for each manifest request, an entry under
    its key; the entry is a response in the ok range that the network gave
    for a manifest request with that key. *)
Theorem onInstall_precaches_every_manifest_url
    (network : Request -> NetResult) (absolute : string -> URL)
    (w : World) (request : Request) :
  Forall (precached network) (precache_requests absolute) ->
  request ∈ precache_requests absolute ->
  exists d asked,
    cache_entry (storage (onInstall network absolute w).2) CACHE_NAME
      (request_key request) = Some d
    /\ response_ok d = true
    /\ asked ∈ precache_requests absolute
    /\ request_key asked = request_key request
    /\ network asked = NetResponse d.
Proof.
  intros Hok Hin.
  destruct (onInstall_success_storage network absolute w Hok)
    as (entries & Hall & Hst).
  destruct (recorded_entries network _ _ Hall) as [Hpresent Horigin].
  destruct (Hpresent request Hin) as [d Hd].
  destruct (Horigin _ _ Hd) as (asked & Hasked & Hkey & Hnet & Hdok).
  exists d, asked. rewrite Hst. unfold cache_entry.
  rewrite storage_lookup_open_update, foldl_insert_lookup, Hd. auto.
Qed.

Lemma onInstall_precaches_every_manifest_url_witness :
  exists d asked,
    cache_entry (storage (onInstall network_up journal_url empty_world).2)
      CACHE_NAME (request_key (mkRequest "GET" (journal_url "/index.html") "" []))
    = Some d
    /\ response_ok d = true
    /\ asked ∈ precache_requests journal_url
    /\ request_key asked
       = request_key (mkRequest "GET" (journal_url "/index.html") "" [])
    /\ network_up asked = NetResponse d.
Proof.
  apply (onInstall_precaches_every_manifest_url network_up journal_url
           empty_world (mkRequest "GET" (journal_url "/index.html") "" [])).
  - repeat constructor; eexists; split; reflexivity.
  - apply elem_of_cons. right. apply elem_of_cons. left. reflexivity.
Defined.

(** X9.  Installing again changes nothing in the storage: on the same
    network, a second install leaves every cache exactly as the first one
    left it, whether the precaching succeeded or failed. *)
Theorem onInstall_twice_same_storage
    (network : Request -> NetResult) (absolute : string -> URL) (w : World) :
  let w1 := (onInstall network absolute w).2 in
  storage (onInstall network absolute w1).2 = storage w1.
Proof.
  destruct w as [st os tr]. cbv zeta.
  destruct (mapM (addAll_entry network) (precache_requests absolute))
    as [entries|] eqn:Hall.
  - rewrite (onInstall_success_run network absolute st os tr entries Hall).
    cbn [snd]. rewrite (onInstall_success_run network absolute _ _ _ entries Hall).
    cbn [snd storage].
    rewrite (storage_open_present
               (storage_update (storage_open st CACHE_NAME) CACHE_NAME _))
      by (rewrite storage_lookup_open_update; eexists; reflexivity).
    rewrite storage_update_update. apply storage_update_ext.
    intros c. apply foldl_insert_idempotent.
  - rewrite (onInstall_failure_run network absolute st os tr Hall).
    cbn [snd]. rewrite (onInstall_failure_run network absolute _ _ _ Hall).
    cbn [snd storage]. apply storage_open_present.
    rewrite storage_lookup_open, String.eqb_refl. eexists. reflexivity.
Qed.

(** X10.  Install followed by activation: whatever the network did during
    install and whatever generations existed before (under distinct
    names), the caches listed after activation are exactly the current
    one. *)
Theorem install_then_activate_lists_current
    (network : Request -> NetResult) (absolute : string -> URL) (w : World) :
  NoDup (map fst (storage w)) ->
  let installed := (onInstall network absolute w).2 in
  map fst (storage (onActivate installed).2) = [CACHE_NAME].
Proof.
  intros Hnd. cbv zeta.
  pose proof (onInstall_keeps_names_distinct network absolute w Hnd) as Hnd1.
  pose proof (onInstall_opens_current network absolute w) as Hcur.
  destruct (onInstall network absolute w).2 as [st1 os1 tr1].
  cbn [storage] in Hnd1, Hcur.
  rewrite onActivate_run. cbn [snd storage].
  rewrite names_of_current by exact Hnd1.
  rewrite bool_decide_eq_true_2; [reflexivity|].
  destruct (decide (CACHE_NAME ∈ map fst st1)) as [Hin|Hout]; [exact Hin|].
  apply storage_lookup_None_names in Hout. rewrite Hout in Hcur.
  destruct Hcur as [c Hc]. discriminate.
Qed.

Lemma install_then_activate_lists_current_witness :
  NoDup (map fst (storage world_two_generations))
  /\ map fst
       (storage
          (onActivate
             (onInstall network_down journal_url world_two_generations).2).2)
     = [CACHE_NAME].
Proof.
  assert (Hnd : NoDup (map fst (storage world_two_generations))).
  { apply NoDup_cons. split.
    - intros Hin. apply list_elem_of_singleton in Hin. discriminate.
    - apply NoDup_singleton. }
  split; [exact Hnd|].
  exact (install_then_activate_lists_current network_down journal_url
           world_two_generations Hnd).
Defined.

(** X11.  The application shell works offline: once install has precached
    the manifest, any request with the method and URL of a manifest
    request is answered by cache-first from the store, with a stored
    response, on whatever network, the lookup being the only call into the
    host. *)
Theorem precached_shell_is_served_offline
    (network network' : Request -> NetResult) (absolute : string -> URL)
    (w : World) (request asked : Request) :
  Forall (precached network) (precache_requests absolute) ->
  asked ∈ precache_requests absolute ->
  request_key request = request_key asked ->
  let installed := (onInstall network absolute w).2 in
  exists d,
    storage_match (storage installed) (request_key request) = Some d
    /\ cacheFirstStrategy network' request installed =
       (Fulfilled (length (objects installed)),
        mkWorld (storage installed)
          (objects installed ++ [mkResponseObj d false])
          (trace installed ++ [EvCachesMatch (request_key request)])).
Proof.
  intros Hok Hin Hkey. cbv zeta.
  destruct (onInstall_success_storage network absolute w Hok)
    as (entries & Hall & Hst).
  destruct (recorded_entries network _ _ Hall) as [Hpresent _].
  destruct (Hpresent asked Hin) as [d0 Hd0]. rewrite <- Hkey in Hd0.
  assert (Hentry : cache_entry (storage (onInstall network absolute w).2)
                     CACHE_NAME (request_key request) = Some d0).
  { rewrite Hst. unfold cache_entry.
    rewrite storage_lookup_open_update, foldl_insert_lookup, Hd0.
    reflexivity. }
  destruct (cache_entry_storage_match _ _ _ _ Hentry) as [d Hd].
  exists d. split; [exact Hd|].
  destruct (onInstall network absolute w).2 as [st1 os1 tr1].
  apply cacheFirst_hit_run. exact Hd.
Qed.

Lemma precached_shell_is_served_offline_witness :
  let asked := mkRequest "GET" (journal_url "/") "" [] in
  let request :=
    mkRequest "GET" (journal_url "/") "document" [("accept", "text/html")] in
  let installed := (onInstall network_up journal_url empty_world).2 in
  Forall (precached network_up) (precache_requests journal_url)
  /\ asked ∈ precache_requests journal_url
  /\ request_key request = request_key asked
  /\ exists d,
       storage_match (storage installed) (request_key request) = Some d
       /\ cacheFirstStrategy network_down request installed =
          (Fulfilled (length (objects installed)),
           mkWorld (storage installed)
             (objects installed ++ [mkResponseObj d false])
             (trace installed ++ [EvCachesMatch (request_key request)])).
Proof.
  assert (Hok : Forall (precached network_up) (precache_requests journal_url))
    by (repeat constructor; eexists; split; reflexivity).
  assert (Hin : (mkRequest "GET" (journal_url "/") "" [])
                ∈ precache_requests journal_url)
    by (apply elem_of_cons; left; reflexivity).
  cbv zeta. split; [exact Hok|]. split; [exact Hin|]. split; [reflexivity|].
  exact (precached_shell_is_served_offline network_up network_down journal_url
           empty_world
           (mkRequest "GET" (journal_url "/") "document"
              [("accept", "text/html")])
           (mkRequest "GET" (journal_url "/") "" [])
           Hok Hin eq_refl).
Defined.

(** ** Beyond the claims: activate *)

Section ActivateCoverage.

Implicit Types st : list (string * gmap (string * string) ResponseData).

Lemma deletions_sweep (names : list string) :
  deletions (flat_map sweep_events names) = names.
Proof.
  unfold deletions. induction names as [|n names IH]; [reflexivity|].
  cbn. f_equal. exact IH.
Qed.

Lemma stale_names_swept st :
  stale_names (List.filter (fun c => String.eqb (fst c) CACHE_NAME) st) = [].
Proof.
  unfold stale_names. induction st as [|[n c] st IH]; [reflexivity|].
  simpl. destruct (String.eqb n CACHE_NAME) eqn:Hn; [|exact IH].
  simpl. rewrite Hn. simpl. exact IH.
Qed.

Lemma filter_current_twice st :
  List.filter (fun c => String.eqb (fst c) CACHE_NAME)
    (List.filter (fun c => String.eqb (fst c) CACHE_NAME) st)
  = List.filter (fun c => String.eqb (fst c) CACHE_NAME) st.
Proof.
  induction st as [|[n c] st IH]; [reflexivity|].
  simpl. destruct (String.eqb n CACHE_NAME) eqn:Hn; [|exact IH].
  simpl. rewrite Hn. f_equal. exact IH.
Qed.

Lemma filter_current_absent st (name : string) :
  name ∉ map fst st ->
  List.filter (fun c => String.eqb (fst c) name) st = [].
Proof.
  induction st as [|[n c] st IH]; [reflexivity|].
  simpl. intros Hout. apply not_elem_of_cons in Hout as [Hne Hout].
  apply not_eq_sym in Hne. apply String.eqb_neq in Hne. rewrite Hne.
  apply IH. exact Hout.
Qed.

Lemma storage_match_current st (key : string * string) :
  NoDup (map fst st) ->
  storage_match (List.filter (fun c => String.eqb (fst c) CACHE_NAME) st) key
  = cache_entry st CACHE_NAME key.
Proof.
  unfold cache_entry. generalize CACHE_NAME. intros name.
  induction st as [|[n c] st IH]; [reflexivity|].
  simpl. intros [Hn Hnd]%NoDup_cons.
  destruct (String.eqb n name) eqn:Hcur.
  - apply String.eqb_eq in Hcur. subst n. simpl.
    rewrite filter_current_absent by exact Hn.
    destruct (c !! key); reflexivity.
  - apply IH. exact Hnd.
Qed.

(** X12.  Activation deletes each stale generation once, in listing order,
    and never the current one; a second activation finds nothing to delete
    and leaves the storage as the first one left it. *)
Theorem onActivate_deletes_stale_once (w : World) :
  let w1 := (onActivate w).2 in
  deletions (trace w1) = (deletions (trace w) ++ stale_names (storage w))%list
  /\ ~ (CACHE_NAME ∈ stale_names (storage w))
  /\ storage (onActivate w1).2 = storage w1
  /\ deletions (trace (onActivate w1).2) = deletions (trace w1).
Proof.
  destruct w as [st os tr]. cbv zeta. rewrite onActivate_run.
  cbn [snd storage trace]. rewrite onActivate_run. cbn [snd storage trace].
  rewrite stale_names_swept, filter_current_twice.
  unfold deletions at 1 3 4. rewrite !omap_app.
  fold (deletions (flat_map sweep_events (stale_names st))).
  rewrite deletions_sweep. cbn. rewrite !app_nil_r.
  split; [reflexivity|]. split; [|split; reflexivity].
  unfold stale_names. intros Hin. apply list_elem_of_In in Hin.
  apply List.filter_In in Hin as [_ Hin].
  rewrite String.eqb_refl in Hin. discriminate.
Qed.

End ActivateCoverage.

(** X13.  Once the worker has activated, a lookup returns exactly what the
    current generation held for the key before: no entry of another
    generation can be served any more, and no entry of the current one is
    lost. *)
Theorem onActivate_lookups_from_current (w : World) (key : string * string) :
  NoDup (map fst (storage w)) ->
  storage_match (storage (onActivate w).2) key
  = cache_entry (storage w) CACHE_NAME key.
Proof.
  intros Hnd. destruct w as [st os tr]. rewrite onActivate_run.
  cbn [snd storage]. apply storage_match_current. exact Hnd.
Qed.

Lemma onActivate_lookups_from_current_witness :
  NoDup (map fst (storage world_two_generations))
  /\ storage_match (storage (onActivate world_two_generations).2)
       (request_key (journal_get "/a.png" "image"))
     = None.
Proof.
  assert (Hnd : NoDup (map fst (storage world_two_generations))).
  { apply NoDup_cons. split.
    - intros Hin. apply list_elem_of_singleton in Hin. discriminate.
    - apply NoDup_singleton. }
  split; [exact Hnd|].
  exact (onActivate_lookups_from_current world_two_generations
           (request_key (journal_get "/a.png" "image")) Hnd).
Defined.

(** ** Beyond the claims: what the store can ever hold *)

Section StoreInvariant.

Variable absolute : string -> URL.

Implicit Types st : list (string * gmap (string * string) ResponseData).

Lemma store_ok_open st (name : string) :
  store_ok st -> store_ok (storage_open st name).
Proof.
  intros Hok. unfold storage_open.
  destruct (storage_lookup st name); [exact Hok|].
  apply Forall_app. split; [exact Hok|].
  apply Forall_cons. split; [apply map_Forall_empty | apply Forall_nil_2].
Qed.

Lemma store_ok_update st (name : string)
    (f : gmap (string * string) ResponseData ->
         gmap (string * string) ResponseData) :
  (forall c,
      map_Forall (fun k d => fst k = "GET" /\ response_ok d = true) c ->
      map_Forall (fun k d => fst k = "GET" /\ response_ok d = true) (f c)) ->
  store_ok st -> store_ok (storage_update st name f).
Proof.
  intros Hf. unfold store_ok.
  induction st as [|[n c] st IH]; intros Hok; [exact Hok|].
  apply Forall_cons in Hok as [Hc Hst]. simpl.
  destruct (String.eqb n name); apply Forall_cons; split.
  - apply Hf. exact Hc.
  - exact Hst.
  - exact Hc.
  - apply IH. exact Hst.
Qed.

Lemma store_ok_filter st (p : string * gmap (string * string) ResponseData
                              -> bool) :
  store_ok st -> store_ok (List.filter p st).
Proof.
  unfold store_ok. induction st as [|c st IH]; intros Hok; [exact Hok|].
  apply Forall_cons in Hok as [Hc Hst]. simpl.
  destruct (p c); [apply Forall_cons; split|]; auto.
Qed.

Lemma store_ok_match st (key : string * string) (d : ResponseData) :
  store_ok st -> storage_match st key = Some d ->
  fst key = "GET" /\ response_ok d = true.
Proof.
  unfold store_ok. induction st as [|[n c] st IH]; intros Hok; simpl;
    [discriminate|].
  apply Forall_cons in Hok as [Hc Hst].
  destruct (c !! key) as [d'|] eqn:Hk.
  - intros [= <-]. exact (Hc key d' Hk).
  - apply IH. exact Hst.
Qed.

Lemma precache_requests_GET (request : Request) :
  request ∈ precache_requests absolute -> method request = "GET".
Proof.
  unfold precache_requests. intros Hin. apply list_elem_of_In in Hin.
  apply List.in_map_iff in Hin as (u & <- & _). reflexivity.
Qed.

Lemma status_200_ok (d : ResponseData) :
  status d = 200 -> response_ok d = true.
Proof. intros Hd. unfold response_ok. rewrite Hd. reflexivity. Qed.

Lemma onInstall_keeps_store_ok (network : Request -> NetResult) (w : World) :
  store_ok (storage w) -> store_ok (storage (onInstall network absolute w).2).
Proof.
  intros Hok. destruct w as [st os tr]. cbn [storage] in Hok.
  destruct (mapM (addAll_entry network) (precache_requests absolute))
    as [entries|] eqn:Hall.
  - rewrite (onInstall_success_run network absolute st os tr entries Hall).
    cbn [snd storage]. apply mapM_Some in Hall.
    destruct (recorded_entries network _ _ Hall) as [_ Horigin].
    apply store_ok_update; [|apply store_ok_open; exact Hok].
    intros c Hc k v. rewrite foldl_insert_lookup.
    destruct (foldl _ ∅ entries !! k) as [v'|] eqn:Hk.
    + intros [= <-].
      destruct (Horigin k v' Hk) as (request & Hin & <- & _ & Hv).
      split; [apply precache_requests_GET; exact Hin | exact Hv].
    + apply Hc.
  - rewrite (onInstall_failure_run network absolute st os tr Hall).
    cbn [snd storage]. apply store_ok_open. exact Hok.
Qed.

Lemma bind_some_world {A} (m : Async A) (w : World) :
  ((r ← m; mret (Some r)) w).2 = (m w).2.
Proof.
  unfold mbind, Async_bind, and_then. destruct (m w) as [[a|e] w'];
    reflexivity.
Qed.

(** The listener leaves the storage alone, or it has answered a GET
    request through a strategy. *)
Lemma onFetch_storage (network : Request -> NetResult) (request : Request)
    (w : World) :
  storage (onFetch network request w).2 = storage w
  \/ (method request = "GET"
      /\ ((onFetch network request w).2
          = (cacheFirstStrategy network request w).2
          \/ (onFetch network request w).2
             = (networkFirstStrategy network request w).2)).
Proof.
  unfold onFetch.
  destruct (String.eqb (method request) "GET") eqn:Hm; [|left; reflexivity].
  apply String.eqb_eq in Hm. cbn [negb].
  destruct (startsWith (protocol (url request)) "http");
    [|left; reflexivity].
  cbn [negb]. right. split; [exact Hm|].
  destruct (String.eqb (hostname (url request)) "fonts.googleapis.com"
            || String.eqb (hostname (url request)) "fonts.gstatic.com");
    [right | left]; apply bind_some_world.
Qed.

Lemma stored_at_most_answer_keeps_store_ok
    (network : Request -> NetResult) (request : Request) (w : World)
    (result : Outcome Ref * World) :
  method request = "GET" ->
  stored_at_most_answer network request w result ->
  store_ok (storage w) -> store_ok (storage result.2).
Proof.
  intros Hm [Hst | (d & _ & Hd & Hst)] Hok; rewrite Hst; [exact Hok|].
  apply store_ok_update; [|apply store_ok_open; exact Hok].
  intros c Hc. apply map_Forall_insert_2; [|exact Hc].
  split; [exact Hm | apply status_200_ok; exact Hd].
Qed.

Lemma onFetch_keeps_store_ok (network : Request -> NetResult)
    (request : Request) (w : World) :
  store_ok (storage w) -> store_ok (storage (onFetch network request w).2).
Proof.
  intros Hok.
  destruct (onFetch_storage network request w) as [Hst | [Hm [Hst | Hst]]];
    rewrite Hst; [exact Hok | |].
  - apply (stored_at_most_answer_keeps_store_ok network request w _ Hm);
      [apply cacheFirst_stored_at_most_answer | exact Hok].
  - apply (stored_at_most_answer_keeps_store_ok network request w _ Hm);
      [apply networkFirst_stored_at_most_answer | exact Hok].
Qed.

Lemma onFetch_keeps_names_distinct (network : Request -> NetResult)
    (request : Request) (w : World) :
  NoDup (map fst (storage w)) ->
  NoDup (map fst (storage (onFetch network request w).2)).
Proof.
  intros Hnd.
  destruct (onFetch_storage network request w) as [Hst | [Hm [Hst | Hst]]];
    rewrite Hst; [exact Hnd | |];
    apply (strategies_keep_names_distinct network w request Hnd).
Qed.

Lemma onMessage_storage (data : JsValue) (w : World) :
  storage (onMessage data w).2 = storage w.
Proof.
  unfold onMessage. destruct (truthy data); [|reflexivity].
  unfold mbind, Async_bind, and_then.
  destruct (js_get data "type" w) as [[v|e] w'] eqn:Hget.
  - assert (w' = w) as ->.
    { unfold js_get in Hget. destruct data as [| |b|n|s|props];
        try (injection Hget as _ <-; reflexivity); try discriminate.
      destruct (own_property props "type");
        injection Hget as _ <-; reflexivity. }
    destruct (strict_eq_string v "SKIP_WAITING"); reflexivity.
  - unfold js_get in Hget. destruct data as [| |b|n|s|props];
      try discriminate; try (injection Hget as _ <-; reflexivity).
    destruct (own_property props "type"); discriminate.
Qed.

Lemma deliver_keeps_invariant (w : World) (ev : HostEvent) :
  store_ok (storage w) /\ NoDup (map fst (storage w)) ->
  store_ok (storage (deliver absolute w ev))
  /\ NoDup (map fst (storage (deliver absolute w ev))).
Proof.
  intros [Hok Hnd]. destruct ev as [network| |network request|data]; cbn.
  - split; [apply onInstall_keeps_store_ok; exact Hok
           |apply onInstall_keeps_names_distinct; exact Hnd].
  - split; [|apply onActivate_keeps_names_distinct; exact Hnd].
    destruct w as [st os tr]. rewrite onActivate_run. cbn [snd storage].
    apply store_ok_filter. exact Hok.
  - split; [apply onFetch_keeps_store_ok; exact Hok
           |apply onFetch_keeps_names_distinct; exact Hnd].
  - rewrite onMessage_storage. split; assumption.
Qed.

(** X14.  What the store can ever hold: after any sequence of install,
    activate, fetch and message events, on any networks, starting from a
    first visit, the cache names are distinct, every entry of every cache
    is keyed by a GET request and holds a response with a status in the ok
    range, and so is every response a lookup can return.  No error page
    and no answer to a non-GET request is ever stored or served from the
    store. *)
Theorem history_keeps_store_ok (events : list HostEvent) :
  let w := history absolute events in
  store_ok (storage w)
  /\ NoDup (map fst (storage w))
  /\ forall key d,
       storage_match (storage w) key = Some d ->
       fst key = "GET" /\ response_ok d = true.
Proof.
  cbv zeta. unfold history.
  assert (Hinv : forall w0,
             store_ok (storage w0) /\ NoDup (map fst (storage w0)) ->
             store_ok (storage (foldl (deliver absolute) w0 events))
             /\ NoDup (map fst (storage (foldl (deliver absolute) w0 events)))).
  { induction events as [|ev events IH]; intros w0 Hw0; [exact Hw0|].
    cbn [foldl]. apply IH. apply deliver_keeps_invariant. exact Hw0. }
  destruct (Hinv (mkWorld [] [] [])) as [Hok Hnd].
  { split; [apply Forall_nil_2 | apply NoDup_nil_2]. }
  split; [exact Hok|]. split; [exact Hnd|].
  intros key d. apply store_ok_match. exact Hok.
Qed.

End StoreInvariant.

(** ** Activation in the life of the worker *)

Section ActivationTiming.

Variable hurry : string -> bool.

Implicit Types st : list (string * gmap (string * string) ResponseData).
Implicit Types tl : list Moment.

Lemma t_bind_fulfilled {A B} (m : TAsync A) (k : A -> TAsync B)
    (t : Timed) (a : A) (t' : Timed) :
  m t = (Fulfilled a, t') -> (m ≫= k) t = k a t'.
Proof.
  intros Hm. unfold mbind, TAsync_bind, t_and_then. rewrite Hm. reflexivity.
Qed.

(** Asking for the deletions, one callback after the other: the hurried
    ones are carried out on the spot, the others are pending. *)
Lemma timed_map_run (f : string -> TAsync string) :
  (forall n st pend tl,
      f n (mkTimed st pend tl)
      = (Fulfilled n,
         if hurry n
         then mkTimed (storage_delete st n) pend (tl ++ asked hurry n)
         else mkTimed st (pend ++ [n]) (tl ++ asked hurry n))) ->
  forall names st pend tl,
    timed_map f names (mkTimed st pend tl)
    = (Fulfilled names,
       mkTimed (foldl storage_delete st (List.filter hurry names))
         (pend ++ List.filter (fun n => negb (hurry n)) names)
         (tl ++ flat_map (asked hurry) names)).
Proof.
  intros Hf names. induction names as [|n names IH]; intros st pend tl.
  - cbn. rewrite !app_nil_r. reflexivity.
  - cbn [timed_map]. rewrite (t_bind_fulfilled _ _ _ _ _ (Hf n st pend tl)).
    destruct (hurry n) eqn:Hn.
    + rewrite (t_bind_fulfilled _ _ _ _ _ (IH _ _ _)).
      cbn. rewrite Hn. cbn. rewrite <- !app_assoc. reflexivity.
    + rewrite (t_bind_fulfilled _ _ _ _ _ (IH _ _ _)).
      cbn. rewrite Hn. cbn. rewrite <- !app_assoc. reflexivity.
Qed.

Lemma ask_run (n : string) st (pend : list string) tl :
  (t_emit (EvConsoleLog ["[SW] Deleting old cache:"; n]) ;;
   timed_caches_delete hurry n) (mkTimed st pend tl)
  = (Fulfilled n,
     if hurry n
     then mkTimed (storage_delete st n) pend (tl ++ asked hurry n)
     else mkTimed st (pend ++ [n]) (tl ++ asked hurry n)).
Proof.
  unfold asked, timed_caches_delete, t_emit, timed, mbind, TAsync_bind,
    t_and_then. cbn.
  destruct (hurry n); cbn; rewrite <- !app_assoc; reflexivity.
Qed.

Lemma filter_all {A} (p : A -> bool) (l : list A) :
  (forall x, In x l -> p x = true) -> List.filter p l = l.
Proof.
  induction l as [|x l IH]; intros Hp; [reflexivity|].
  simpl. rewrite (Hp x (or_introl eq_refl)). f_equal.
  apply IH. intros y Hy. apply Hp. right. exact Hy.
Qed.

Lemma filter_none {A} (p : A -> bool) (l : list A) :
  (forall x, In x l -> p x = false) -> List.filter p l = [].
Proof.
  induction l as [|x l IH]; intros Hp; [reflexivity|].
  simpl. rewrite (Hp x (or_introl eq_refl)).
  apply IH. intros y Hy. apply Hp. right. exact Hy.
Qed.

Lemma awaited_pending (names : list string) (n : string) :
  In n (List.filter (fun n => negb (hurry n)) names) ->
  awaited names n = true.
Proof.
  intros Hin. apply List.filter_In in Hin as [Hin _].
  unfold awaited. apply existsb_exists. exists n.
  split; [exact Hin | apply String.eqb_refl].
Qed.

Lemma existsb_split (q : string -> bool) (names : list string) :
  existsb q (List.filter hurry names
             ++ List.filter (fun n => negb (hurry n)) names)
  = existsb q names.
Proof.
  rewrite existsb_app.
  induction names as [|n names IH]; [reflexivity|].
  simpl. destruct (hurry n); simpl; rewrite <- IH.
  - rewrite orb_assoc. reflexivity.
  - destruct (existsb q (List.filter hurry names)); simpl;
      [rewrite orb_true_r |]; reflexivity.
Qed.

(** However the host paces the deletions, what has been deleted when the
    wait is over is what [onActivate] deletes. *)
Lemma deleted_either_way st :
  foldl storage_delete
    (foldl storage_delete st (List.filter hurry (stale_names st)))
    (List.filter (fun n => negb (hurry n)) (stale_names st))
  = List.filter (fun c => String.eqb (fst c) CACHE_NAME) st.
Proof.
  rewrite <- foldl_app, foldl_storage_delete.
  rewrite <- sweep_keeps_current, foldl_storage_delete.
  apply List.filter_ext. intros c. rewrite existsb_split. reflexivity.
Qed.

Lemma onActivateTimed_run st tl :
  onActivateTimed hurry (mkTimed st [] tl)
  = (Fulfilled tt,
     mkTimed (List.filter (fun c => String.eqb (fst c) CACHE_NAME) st) []
       (tl
        ++ [Called (EvConsoleLog ["[SW] Activating new Service Worker…"]);
            Called EvCachesKeys]
        ++ flat_map (asked hurry) (stale_names st)
        ++ map Carried
             (List.filter (fun n => negb (hurry n)) (stale_names st))
        ++ [Called
              (EvConsoleLog
                 ["[SW] Activation complete — claiming all clients"]);
            Called EvClientsClaim])%list).
Proof.
  unfold onActivateTimed.
  rewrite (t_bind_fulfilled _ _ _ tt
             (mkTimed st []
                (tl ++ [Called (EvConsoleLog
                                  ["[SW] Activating new Service Worker…"])])))
    by reflexivity.
  rewrite (t_bind_fulfilled _ _ _ (map fst st)
             (mkTimed st []
                ((tl ++ [Called (EvConsoleLog
                                   ["[SW] Activating new Service Worker…"])])
                 ++ [Called EvCachesKeys])))
    by reflexivity.
  fold (stale_names st).
  rewrite (t_bind_fulfilled _ _ _ _ _
             (timed_map_run _ ask_run (stale_names st) st [] _)).
  unfold timed_await_all, t_emit, timed, mbind, TAsync_bind, t_and_then.
  cbn [t_storage t_pending t_timeline app].
  rewrite (filter_all (awaited (stale_names st)))
    by (intros n Hn; apply awaited_pending; exact Hn).
  rewrite (filter_none (fun name => negb (awaited (stale_names st) name)))
    by (intros n Hn; rewrite (awaited_pending _ _ Hn); reflexivity).
  rewrite deleted_either_way. rewrite <- !app_assoc. reflexivity.
Qed.

Lemma calls_asked (names : list string) :
  calls (flat_map (asked hurry) names) = flat_map sweep_events names.
Proof.
  induction names as [|n names IH]; [reflexivity|].
  change (flat_map (asked hurry) (n :: names))
    with (asked hurry n ++ flat_map (asked hurry) names)%list.
  unfold calls in *. rewrite omap_app, IH. unfold asked.
  destruct (hurry n); reflexivity.
Qed.

Lemma calls_carried (names : list string) :
  calls (map Carried names) = [].
Proof. induction names as [|n names IH]; [reflexivity | exact IH]. Qed.

Lemma calls_activation (names pending : list string) (a b c d : Event) :
  calls ([Called a; Called b]
         ++ flat_map (asked hurry) names
         ++ map Carried pending
         ++ [Called c; Called d])
  = ([a; b] ++ flat_map sweep_events names ++ [c; d])%list.
Proof.
  unfold calls. rewrite !omap_app.
  fold (calls (flat_map (asked hurry) names)).
  fold (calls (map Carried pending)).
  rewrite calls_asked, calls_carried. reflexivity.
Qed.

Lemma asked_and_carried (names : list string) (name : string) :
  In name names ->
  In (Called (EvCachesDelete name))
    (flat_map (asked hurry) names
     ++ map Carried (List.filter (fun n => negb (hurry n)) names))
  /\ In (Carried name)
       (flat_map (asked hurry) names
        ++ map Carried (List.filter (fun n => negb (hurry n)) names)).
Proof.
  intros Hin. split.
  - apply List.in_or_app. left. apply List.in_flat_map.
    exists name. split; [exact Hin|]. unfold asked. right. left. reflexivity.
  - destruct (hurry name) eqn:Hn.
    + apply List.in_or_app. left. apply List.in_flat_map.
      exists name. split; [exact Hin|]. unfold asked. rewrite Hn.
      right. right. left. reflexivity.
    + apply List.in_or_app. right. apply List.in_map.
      apply List.filter_In. split; [exact Hin | rewrite Hn; reflexivity].
Qed.

End ActivationTiming.

(** The current generation, once install has opened it, is there after
    every event, and the names stay distinct. *)
Lemma deliver_keeps_current (absolute : string -> URL) (w : World)
    (ev : HostEvent) :
  is_Some (storage_lookup (storage w) CACHE_NAME)
  /\ NoDup (map fst (storage w)) ->
  is_Some (storage_lookup (storage (deliver absolute w ev)) CACHE_NAME)
  /\ NoDup (map fst (storage (deliver absolute w ev))).
Proof.
  intros [Hcur Hnd]. destruct ev as [network| |network request|data]; cbn.
  - split; [apply onInstall_opens_current
           |apply onInstall_keeps_names_distinct; exact Hnd].
  - split; [|apply onActivate_keeps_names_distinct; exact Hnd].
    destruct w as [st os tr]. rewrite onActivate_run. cbn [snd storage].
    rewrite storage_lookup_kept. exact Hcur.
  - split; [|apply onFetch_keeps_names_distinct; exact Hnd].
    destruct (onFetch_storage network request w) as [Hst | [_ [Hst | Hst]]];
      rewrite Hst; [exact Hcur | |].
    + destruct (cacheFirst_stored_at_most_answer network w request)
        as [Hsame | (d & _ & _ & Hnew)]; [rewrite Hsame; exact Hcur|].
      rewrite Hnew, storage_lookup_open_update. eexists. reflexivity.
    + destruct (networkFirst_stored_at_most_answer network w request)
        as [Hsame | (d & _ & _ & Hnew)]; [rewrite Hsame; exact Hcur|].
      rewrite Hnew, storage_lookup_open_update. eexists. reflexivity.
  - rewrite onMessage_storage. split; assumption.
Qed.

Lemma installed_worker_has_current (absolute : string -> URL)
    (network : Request -> NetResult) (w0 : World) (events : list HostEvent) :
  NoDup (map fst (storage w0)) ->
  let w := foldl (deliver absolute) (onInstall network absolute w0).2 events in
  is_Some (storage_lookup (storage w) CACHE_NAME)
  /\ NoDup (map fst (storage w)).
Proof.
  intros Hnd. cbv zeta.
  assert (Hstart :
            is_Some (storage_lookup
                       (storage (onInstall network absolute w0).2) CACHE_NAME)
            /\ NoDup (map fst (storage (onInstall network absolute w0).2)))
    by (split; [apply onInstall_opens_current
               |apply onInstall_keeps_names_distinct; exact Hnd]).
  revert Hstart. generalize (onInstall network absolute w0).2.
  induction events as [|ev events IH]; intros w Hw; [exact Hw|].
  cbn [foldl]. apply IH. apply deliver_keeps_current. exact Hw.
Qed.

(** C6.  Activation in the life of the worker: whatever generations
    existed under distinct tags before the worker was installed, whatever
    the network did during install and whatever events followed, and
    however the host paces the deletions, the activate listener fulfils
    and, by the time it calls [clients.claim], has asked for the deletion
    of every generation whose tag differs from the current one and has
    waited until each of these deletions was carried out; no deletion is
    left pending, the current generation keeps its contents, and the tags
    listed afterwards are exactly the current one.  The storage and the
    host calls are those of [onActivate]. *)
Theorem activation_leaves_exactly_current
    (hurry : string -> bool) (absolute : string -> URL)
    (network : Request -> NetResult) (w0 : World) (events : list HostEvent) :
  NoDup (map fst (storage w0)) ->
  let w := foldl (deliver absolute) (onInstall network absolute w0).2 events in
  let result := onActivateTimed hurry (mkTimed (storage w) [] []) in
  result.1 = Fulfilled tt
  /\ map fst (t_storage result.2) = [CACHE_NAME]
  /\ t_pending result.2 = []
  /\ storage_lookup (t_storage result.2) CACHE_NAME
     = storage_lookup (storage w) CACHE_NAME
  /\ (exists before,
        t_timeline result.2
        = (before
           ++ [Called
                 (EvConsoleLog
                    ["[SW] Activation complete — claiming all clients"]);
               Called EvClientsClaim])%list
        /\ ~ In (Called EvClientsClaim) before
        /\ forall name,
             In name (map fst (storage w)) -> name <> CACHE_NAME ->
             In (Called (EvCachesDelete name)) before
             /\ In (Carried name) before)
  /\ t_storage result.2 = storage (onActivate w).2
  /\ trace (onActivate w).2 = (trace w ++ calls (t_timeline result.2))%list.
Proof.
  intros Hnd. cbv zeta.
  destruct (installed_worker_has_current absolute network w0 events Hnd)
    as [Hcur Hnd'].
  revert Hcur Hnd'.
  generalize (foldl (deliver absolute) (onInstall network absolute w0).2
                events).
  intros [st os tr] Hcur Hnd'. cbn [storage] in *.
  rewrite onActivateTimed_run, onActivate_run.
  cbn [fst snd t_storage t_pending t_timeline storage trace app].
  split; [reflexivity|]. split.
  { rewrite names_of_current by exact Hnd'.
    rewrite bool_decide_eq_true_2; [reflexivity|].
    destruct (decide (CACHE_NAME ∈ map fst st)) as [Hin|Hout]; [exact Hin|].
    apply storage_lookup_None_names in Hout. rewrite Hout in Hcur.
    destruct Hcur as [c Hc]. discriminate. }
  split; [reflexivity|]. split; [apply storage_lookup_kept|].
  split.
  - exists ([Called (EvConsoleLog ["[SW] Activating new Service Worker…"]);
             Called EvCachesKeys]
            ++ flat_map (asked hurry) (stale_names st)
            ++ map Carried
                 (List.filter (fun n => negb (hurry n)) (stale_names st)))%list.
    split; [rewrite <- !app_assoc; reflexivity|]. split.
    + intros Hin. cbn in Hin. destruct Hin as [Hin|[Hin|Hin]];
        try discriminate.
      apply List.in_app_or in Hin as [Hin|Hin].
      * apply List.in_flat_map in Hin as (n & _ & Hin). unfold asked in Hin.
        cbn in Hin. destruct Hin as [Hin|[Hin|Hin]]; try discriminate.
        destruct (hurry n); cbn in Hin; [destruct Hin as [Hin|[]]|destruct Hin];
          discriminate.
      * apply List.in_map_iff in Hin as (n & Hin & _). discriminate.
    + intros name Hin Hne.
      assert (Hstale : In name (stale_names st)).
      { unfold stale_names. apply List.filter_In. split; [exact Hin|].
        apply String.eqb_neq in Hne. rewrite Hne. reflexivity. }
      destruct (asked_and_carried hurry _ _ Hstale) as [Hasked Hcarried].
      split; right; right; assumption.
  - split; [reflexivity|]. f_equal. symmetry. apply calls_activation.
Qed.

Lemma activation_leaves_exactly_current_witness :
  let lazy (name : string) := false in
  let w := foldl (deliver journal_url)
             (onInstall network_down journal_url world_two_generations).2
             [FetchEvent network_up (journal_get "/b.png" "image")] in
  let result := onActivateTimed lazy (mkTimed (storage w) [] []) in
  NoDup (map fst (storage world_two_generations))
  /\ result.1 = Fulfilled tt
  /\ map fst (t_storage result.2) = [CACHE_NAME]
  /\ t_pending result.2 = [].
Proof.
  assert (Hnd : NoDup (map fst (storage world_two_generations))).
  { apply NoDup_cons. split.
    - intros Hin. apply list_elem_of_singleton in Hin. discriminate.
    - apply NoDup_singleton. }
  cbv zeta. split; [exact Hnd|].
  destruct (activation_leaves_exactly_current (fun _ => false) journal_url
              network_down world_two_generations
              [FetchEvent network_up (journal_get "/b.png" "image")] Hnd)
    as (Hout & Hnames & Hpending & _).
  split; [exact Hout|]. split; [exact Hnames | exact Hpending].
Defined.

(** What the wait is for.  A listener that dropped the promises would, on
    a host that does not hurry, claim the clients while the stale
    generation is still listed and its deletion still pending. *)
Lemma unawaited_activation_claims_too_early :
  let result :=
    onActivateUnawaited (fun _ => false)
      (mkTimed (storage world_two_generations) [] []) in
  result.1 = Fulfilled tt
  /\ map fst (t_storage result.2)
     = ["space-observation-journal-v0"; CACHE_NAME]
  /\ t_pending result.2 = ["space-observation-journal-v0"]
  /\ last (t_timeline result.2) = Some (Called EvClientsClaim)
  /\ ~ In (Carried "space-observation-journal-v0") (t_timeline result.2).
Proof.
  cbn. repeat split; try reflexivity.
  intros Hin. repeat (destruct Hin as [Hin|Hin]; [discriminate|]).
  exact Hin.
Qed.

(** ** The fetch listener on the requests browsers make *)

(** Of the protocols a request can have, only "http:" and "https:" start
    with "http". *)
Lemma only_http_starts_with_http (p : string) :
  In p fetch_event_protocols ->
  startsWith p "http" = true <-> p = "http:" \/ p = "https:".
Proof.
  intros Hin. unfold fetch_event_protocols in Hin.
  repeat (destruct Hin as [<-|Hin];
          [split;
           [intros H; first [discriminate H | left; reflexivity
                            | right; reflexivity]
           |intros [H|H]; first [discriminate H | reflexivity]]
          |]).
  destruct Hin.
Qed.

(** C7.  The fetch listener classifies the request by an ordered rule: a
    request whose method is not GET is not intercepted, and the listener
    then makes no call into the host, so no strategy runs and the store is
    not touched; a GET request whose URL scheme is neither http nor https
    is not intercepted either; a GET request over http or https to one of
    the two font hosts is answered by the network-first strategy; every
    remaining request is answered by the cache-first strategy. *)
Theorem onFetch_classifies_requests
    (network : Request -> NetResult) (request : Request) (w : World) :
  In (protocol (url request)) fetch_event_protocols ->
  (method request <> "GET" ->
     onFetch network request w = (Fulfilled None, w))
  /\ (method request = "GET" ->
      protocol (url request) <> "http:" ->
      protocol (url request) <> "https:" ->
      onFetch network request w = (Fulfilled None, w))
  /\ (method request = "GET" ->
      protocol (url request) = "http:" \/ protocol (url request) = "https:" ->
      hostname (url request) = "fonts.googleapis.com"
      \/ hostname (url request) = "fonts.gstatic.com" ->
      onFetch network request w
      = (r ← networkFirstStrategy network request; mret (Some r)) w)
  /\ (method request = "GET" ->
      protocol (url request) = "http:" \/ protocol (url request) = "https:" ->
      hostname (url request) <> "fonts.googleapis.com" ->
      hostname (url request) <> "fonts.gstatic.com" ->
      onFetch network request w
      = (r ← cacheFirstStrategy network request; mret (Some r)) w).
Proof.
  intros Hreal.
  pose proof (only_http_starts_with_http _ Hreal) as Hhttp.
  destruct (onFetch_routes_in_order network request w)
    as (Hmethod & Hscheme & Hfont & Hrest).
  split; [exact Hmethod|]. split; [|split].
  - intros Hget Hnot_http Hnot_https. apply Hscheme; [exact Hget|].
    destruct (startsWith (protocol (url request)) "http") eqn:Hs;
      [|reflexivity].
    destruct (proj1 Hhttp eq_refl); contradiction.
  - intros Hget Hs Hhost. apply Hfont; [exact Hget | | exact Hhost].
    apply Hhttp. exact Hs.
  - intros Hget Hs Hgoogle Hgstatic.
    apply Hrest; [exact Hget | | exact Hgoogle | exact Hgstatic].
    apply Hhttp. exact Hs.
Qed.

Lemma onFetch_classifies_requests_witness :
  In (protocol (url post_request)) fetch_event_protocols
  /\ In (protocol (url extension_request)) fetch_event_protocols
  /\ In (protocol (url font_request)) fetch_event_protocols
  /\ onFetch network_down post_request empty_world
     = (Fulfilled None, empty_world)
  /\ onFetch network_down extension_request empty_world
     = (Fulfilled None, empty_world)
  /\ onFetch network_up font_request empty_world
     = (r ← networkFirstStrategy network_up font_request; mret (Some r))
         empty_world
  /\ onFetch network_up (journal_get "/a.png" "image") world_with_png
     = (r ← cacheFirstStrategy network_up (journal_get "/a.png" "image");
        mret (Some r)) world_with_png.
Proof.
  assert (Hhttps : In "https:" fetch_event_protocols)
    by (right; left; reflexivity).
  assert (Hext : In "chrome-extension:" fetch_event_protocols)
    by (right; right; left; reflexivity).
  split; [exact Hhttps|]. split; [exact Hext|]. split; [exact Hhttps|].
  split; [|split; [|split]].
  - apply (proj1 (onFetch_classifies_requests network_down post_request
                    empty_world Hhttps)).
    discriminate.
  - apply (proj1 (proj2 (onFetch_classifies_requests network_down
                           extension_request empty_world Hext)));
      [reflexivity | discriminate | discriminate].
  - apply (proj1 (proj2 (proj2 (onFetch_classifies_requests network_up
                                  font_request empty_world Hhttps))));
      [reflexivity | right; reflexivity | left; reflexivity].
  - apply (proj2 (proj2 (proj2 (onFetch_classifies_requests network_up
                                  (journal_get "/a.png" "image")
                                  world_with_png Hhttps))));
      [reflexivity | right; reflexivity | discriminate | discriminate].
Defined.
